(** * Palletizer Go SDK (client.go): a shallow embedding and its properties

    - float64 is Rocq's primitive binary64 [float]; its operations are the
      IEEE 754 round-to-nearest-even ones Go compiles [*] and [/] to.
    - Go's [int] is [Z] (64-bit range where it matters), a Go slice is
      [slice A] (with the nil slice apart from the empty one), a Go string is
      a Rocq [string] (a sequence of bytes).
    - encoding/json is modelled at the level of the JSON value tree: the
      encoder ([json.Marshal]) maps Go values to [json], the decoder
      ([json.Unmarshal]) maps [json] back into Go values.
    - the parts of the Go standard library that do I/O (url parsing, the
      HTTP round trip, reading the body, the response decoder, printing a
      JSON tree to bytes) are fields of a [runtime] record; [Pack] is
      defined over any runtime. *)

From Stdlib Require Import ZArith QArith Qpower Qabs Lqa Lia List String Ascii Bool.
From Stdlib Require Import Floats.SpecFloat Floats.PrimFloat Floats.FloatOps
  Floats.FloatAxioms.
Import ListNotations.

Set Warnings "-inexact-float -register-all".

Open Scope string_scope.
Open Scope Z_scope.

(** ** Generic helpers *)

Inductive result (A E : Type) : Type :=
| Ok (a : A)
| Err (e : E).
Arguments Ok {A E} a.
Arguments Err {A E} e.

(** A Go slice: [None] is the nil slice, [Some l] a non-nil one. *)
Definition slice (A : Type) := option (list A).

Definition slice_to_list {A} (s : slice A) : list A :=
  match s with None => [] | Some l => l end.

(** ** Data model (client.go, lines 79-158) *)

Module Carton.
Record t := mk {
    ID : string;
    Length : float;
    Width : float;
    Height : float;
    Weight : float;
    Quantity : Z;
    Fragile : bool;
    AllowRotation : bool }.
Definition zero : t := mk EmptyString 0%float 0%float 0%float 0%float 0 false false.
End Carton.

Module PackingConstraints.
Record t := mk {
    MaxLength : float;
    MaxWidth : float;
    MaxHeight : float;
    MaxWeight : float }.
Definition zero : t := mk 0%float 0%float 0%float 0%float.
End PackingConstraints.

Module PackingOptions.
Record t := mk { SupportPercentage : float }.
Definition zero : t := mk 0%float.
End PackingOptions.

Module PackingRequest.
Record t := mk {
    Cartons : slice Carton.t;
    PackingConstraints : PackingConstraints.t;
    PackingOptions : PackingOptions.t }.
Definition zero : t := mk None PackingConstraints.zero PackingOptions.zero.
End PackingRequest.

Module Point3D.
Record t := mk { X : float; Y : float; Z : float }.
End Point3D.

Module Dimensions.
Record t := mk { Length : float; Width : float; Height : float }.
End Dimensions.

Module PlacedCarton.
Record t := mk {
    CartonID : string;
    Position : Point3D.t;
    Dimensions : Dimensions.t;
    Orientation : string;
    Weight : float;
    Layer : Z }.
End PlacedCarton.

Module Pallet.
Record t := mk {
    PalletID : Z;
    TotalWeight : float;
    TotalHeight : float;
    UtilizationPercentage : float;
    Cartons : slice PlacedCarton.t;
    CenterOfGravity : Point3D.t }.
End Pallet.

Module PackingSummary.
Record t := mk {
    TotalPallets : Z;
    TotalCartonsPacked : Z;
    AverageUtilization : float;
    ComputationTimeMs : Z }.
End PackingSummary.

Module PackingResponse.
Record t := mk {
    Pallets : slice Pallet.t;
    Summary : PackingSummary.t;
    Error : string }.
End PackingResponse.

(** ** encoding/json: values, errors and UTF-8 handling *)

(** A JSON number literal. [NInt z] is the decimal literal the encoder
    writes for a Go integer; [NFloat f] is the literal the encoder writes
    for a finite float64 [f] (strconv's shortest representation, which
    strconv.ParseFloat reads back as exactly [f]). *)
Inductive number :=
| NInt (z : Z)
| NFloat (f : float).

Inductive json :=
| JNull
| JBool (b : bool)
| JNumber (n : number)
| JString (s : string)
| JArray (l : list json)
| JObject (fields : list (string * json)).

(** The error values of encoding/json that these types can raise. *)
Inductive json_error :=
| UnsupportedValueError (str : string)
| SyntaxError (msg : string) (offset : Z)
| UnmarshalTypeError (value : string) (type_ : string).

Definition json_error_message (e : json_error) : string :=
  match e with
  | UnsupportedValueError str => "json: unsupported value: " ++ str
  | SyntaxError msg _ => msg
  | UnmarshalTypeError value ty =>
      "json: cannot unmarshal " ++ value ++ " into Go value of type " ++ ty
  end.

Definition first_error (e1 e2 : option json_error) : option json_error :=
  match e1 with Some _ => e1 | None => e2 end.

Definition byte_in (c : ascii) (lo hi : N) : bool :=
  (lo <=? N_of_ascii c)%N && (N_of_ascii c <=? hi)%N.

(** One step of utf8.DecodeRuneInString: the next valid UTF-8 sequence and
    the rest of the string, or [None] when the first byte does not start a
    valid sequence (Go's [RuneError] of width 1). *)
Definition utf8_next (s : string) : option (string * string) :=
  match s with
  | EmptyString => None
  | String c0 r0 =>
    if byte_in c0 0 0x7F then Some (String c0 EmptyString, r0) else
    match r0 with
    | EmptyString => None
    | String c1 r1 =>
      if byte_in c0 0xC2 0xDF then
        (if byte_in c1 0x80 0xBF then Some (String c0 (String c1 EmptyString), r1)
         else None)
      else if byte_in c0 0xE0 0xEF then
        let lo := if (N_of_ascii c0 =? 0xE0)%N then 0xA0%N else 0x80%N in
        let hi := if (N_of_ascii c0 =? 0xED)%N then 0x9F%N else 0xBF%N in
        match r1 with
        | String c2 r2 =>
          if byte_in c1 lo hi && byte_in c2 0x80 0xBF
          then Some (String c0 (String c1 (String c2 EmptyString)), r2) else None
        | EmptyString => None
        end
      else if byte_in c0 0xF0 0xF4 then
        let lo := if (N_of_ascii c0 =? 0xF0)%N then 0x90%N else 0x80%N in
        let hi := if (N_of_ascii c0 =? 0xF4)%N then 0x8F%N else 0xBF%N in
        match r1 with
        | String c2 (String c3 r3) =>
          if byte_in c1 lo hi && byte_in c2 0x80 0xBF && byte_in c3 0x80 0xBF
          then Some (String c0 (String c1 (String c2 (String c3 EmptyString))), r3)
          else None
        | _ => None
        end
      else None
    end
  end.

(** The UTF-8 encoding of U+FFFD. *)
Definition replacement_char : string :=
  String (ascii_of_N 0xEF) (String (ascii_of_N 0xBF) (String (ascii_of_N 0xBD) EmptyString)).

(** encodeState.string: every byte that does not start a valid UTF-8
    sequence is replaced by U+FFFD. Every step consumes at least one byte,
    so [length s] steps of fuel are enough. *)
Fixpoint utf8_coerce_fuel (fuel : nat) (s : string) : string :=
  match fuel with
  | O => s
  | S fuel' =>
    match s with
    | EmptyString => EmptyString
    | String _ rest =>
      match utf8_next s with
      | Some (p, r) => p ++ utf8_coerce_fuel fuel' r
      | None => replacement_char ++ utf8_coerce_fuel fuel' rest
      end
    end
  end.

Definition utf8_coerce (s : string) : string := utf8_coerce_fuel (String.length s) s.

Fixpoint utf8_valid_fuel (fuel : nat) (s : string) : bool :=
  match fuel with
  | O => true
  | S fuel' =>
    match s with
    | EmptyString => true
    | String _ _ =>
      match utf8_next s with
      | Some (_, r) => utf8_valid_fuel fuel' r
      | None => false
      end
    end
  end.

(** utf8.ValidString. *)
Definition utf8_valid (s : string) : bool := utf8_valid_fuel (String.length s) s.

(** ** json.Marshal on the request types *)

Notation "x <- m ;; k" :=
  (match m with Ok x => k | Err e => Err e end)
  (at level 60, right associativity).

(** floatEncoder: NaN and the infinities are rejected with an
    UnsupportedValueError (named as strconv.FormatFloat prints them). *)
Definition encode_float (f : float) : result json json_error :=
  if is_nan f then Err (UnsupportedValueError "NaN")
  else if is_infinity f then
    Err (UnsupportedValueError (if get_sign f then "-Inf" else "+Inf"))
  else Ok (JNumber (NFloat f)).

Definition encode_int (z : Z) : json := JNumber (NInt z).

Definition encode_string (s : string) : json := JString (utf8_coerce s).

(** Struct fields are encoded in declaration order, under their json tags. *)
Definition encode_carton (c : Carton.t) : result json json_error :=
  l <- encode_float (Carton.Length c) ;;
  w <- encode_float (Carton.Width c) ;;
  h <- encode_float (Carton.Height c) ;;
  wt <- encode_float (Carton.Weight c) ;;
  Ok (JObject [("id", encode_string (Carton.ID c));
               ("length", l); ("width", w); ("height", h); ("weight", wt);
               ("quantity", encode_int (Carton.Quantity c));
               ("fragile", JBool (Carton.Fragile c));
               ("allow_rotation", JBool (Carton.AllowRotation c))]).

Definition encode_constraints (p : PackingConstraints.t) : result json json_error :=
  a <- encode_float (PackingConstraints.MaxLength p) ;;
  b <- encode_float (PackingConstraints.MaxWidth p) ;;
  c <- encode_float (PackingConstraints.MaxHeight p) ;;
  d <- encode_float (PackingConstraints.MaxWeight p) ;;
  Ok (JObject [("max_length", a); ("max_width", b); ("max_height", c); ("max_weight", d)]).

Definition encode_options (o : PackingOptions.t) : result json json_error :=
  s <- encode_float (PackingOptions.SupportPercentage o) ;;
  Ok (JObject [("support_percentage", s)]).

Fixpoint encode_list {A} (enc : A -> result json json_error) (l : list A)
  : result (list json) json_error :=
  match l with
  | [] => Ok []
  | x :: l' => j <- enc x ;; js <- encode_list enc l' ;; Ok (j :: js)
  end.

(** sliceEncoder: a nil slice is [null]. *)
Definition encode_slice {A} (enc : A -> result json json_error) (s : slice A)
  : result json json_error :=
  match s with
  | None => Ok JNull
  | Some l => js <- encode_list enc l ;; Ok (JArray js)
  end.

Definition encode_request_value (r : PackingRequest.t) : result json json_error :=
  cs <- encode_slice encode_carton (PackingRequest.Cartons r) ;;
  pc <- encode_constraints (PackingRequest.PackingConstraints r) ;;
  po <- encode_options (PackingRequest.PackingOptions r) ;;
  Ok (JObject [("cartons", cs); ("packing_constraints", pc); ("packing_options", po)]).

(** [json.Marshal(request)] for [request : *PackingRequest]; [None] is the
    nil pointer, encoded as [null]. *)
Definition encode_request (request : option PackingRequest.t) : result json json_error :=
  match request with
  | None => Ok JNull
  | Some r => encode_request_value r
  end.

(** ** json.Unmarshal into the request types

    The decoder writes into an existing Go value: [null] leaves it as it
    is, an object updates the fields it names (keys are matched exactly or
    up to ASCII case, unknown keys are skipped), and a value of the wrong
    kind is skipped with an UnmarshalTypeError; decoding goes on and the
    first such error is the one returned (decodeState.saveError). *)

Definition json_kind (j : json) : string :=
  match j with
  | JNull => "null"
  | JBool _ => "bool"
  | JNumber _ => "number"
  | JString _ => "string"
  | JArray _ => "array"
  | JObject _ => "object"
  end.

Definition type_error (j : json) (ty : string) : option json_error :=
  Some (UnmarshalTypeError (json_kind j) ty).

Definition ascii_lower (c : ascii) : ascii :=
  if byte_in c 65 90 then ascii_of_N (N_of_ascii c + 32) else c.

Fixpoint string_lower (s : string) : string :=
  match s with
  | EmptyString => EmptyString
  | String c r => String (ascii_lower c) (string_lower r)
  end.

Definition key_match (name key : string) : bool :=
  String.eqb name key || String.eqb (string_lower name) (string_lower key).

(** strconv.ParseFloat of an integer literal: the nearest float64. *)
Definition float_of_Z (z : Z) : float :=
  SF2Prim (binary_normalize prec emax z 0 false).

Definition int64_in_range (z : Z) : bool := (- 2 ^ 63 <=? z) && (z <? 2 ^ 63).

(** The integer a float literal denotes when the encoder prints it without
    fraction or exponent (an integral value below 1e21 in magnitude), which
    is when strconv.ParseInt accepts it. *)
Definition float_int_value (f : float) : option Z :=
  match Prim2SF f with
  | S754_zero _ => Some 0
  | S754_finite s m e =>
    let v := if 0 <=? e then Some (Zpos m * 2 ^ e)
             else if Zpos m mod 2 ^ (- e) =? 0 then Some (Zpos m / 2 ^ (- e))
             else None in
    match v with
    | Some z => if z <? 10 ^ 21 then Some (if s then - z else z) else None
    | None => None
    end
  | _ => None
  end.

Definition decode_float (old : float) (j : json) : float * option json_error :=
  match j with
  | JNull => (old, None)
  | JNumber (NFloat f) => (f, None)
  | JNumber (NInt z) =>
    let f := float_of_Z z in
    if is_finite f then (f, None) else (old, type_error j "float64")
  | _ => (old, type_error j "float64")
  end.

Definition decode_int (old : Z) (j : json) : Z * option json_error :=
  match j with
  | JNull => (old, None)
  | JNumber (NInt z) => if int64_in_range z then (z, None) else (old, type_error j "int")
  | JNumber (NFloat f) =>
    match float_int_value f with
    | Some z => if int64_in_range z then (z, None) else (old, type_error j "int")
    | None => (old, type_error j "int")
    end
  | _ => (old, type_error j "int")
  end.

Definition decode_bool (old : bool) (j : json) : bool * option json_error :=
  match j with
  | JNull => (old, None)
  | JBool b => (b, None)
  | _ => (old, type_error j "bool")
  end.

Definition decode_string (old : string) (j : json) : string * option json_error :=
  match j with
  | JNull => (old, None)
  | JString s => (s, None)
  | _ => (old, type_error j "string")
  end.

Definition decode_object {S : Type} (set : S -> string -> json -> S * option json_error)
  (ty : string) (old : S) (j : json) : S * option json_error :=
  match j with
  | JNull => (old, None)
  | JObject fs =>
    fold_left (fun acc kv =>
                 let '(s, e) := acc in
                 let '(s', e') := set s (fst kv) (snd kv) in
                 (s', first_error e e')) fs (old, None)
  | _ => (old, type_error j ty)
  end.

(** Array elements are decoded into the existing elements of the slice
    and into zero values past its length; the result has exactly as many
    elements as the array (an empty array gives an empty, non-nil slice). *)
Fixpoint decode_elems {A : Type} (dec : A -> json -> A * option json_error) (zero : A)
  (old : list A) (l : list json) : list A * option json_error :=
  match l with
  | [] => ([], None)
  | j :: l' =>
    let '(a, e) := dec (hd zero old) j in
    let '(rest, e') := decode_elems dec zero (tl old) l' in
    (a :: rest, first_error e e')
  end.

Definition decode_slice {A : Type} (dec : A -> json -> A * option json_error) (zero : A)
  (ty : string) (old : slice A) (j : json) : slice A * option json_error :=
  match j with
  | JNull => (None, None)
  | JArray l => let '(xs, e) := decode_elems dec zero (slice_to_list old) l in (Some xs, e)
  | _ => (old, type_error j ty)
  end.

Definition carton_set (c : Carton.t) (k : string) (v : json) : Carton.t * option json_error :=
  let '(Carton.mk id l w h wt q fr ar) := c in
  if key_match "id" k then
    let '(x, e) := decode_string id v in (Carton.mk x l w h wt q fr ar, e)
  else if key_match "length" k then
    let '(x, e) := decode_float l v in (Carton.mk id x w h wt q fr ar, e)
  else if key_match "width" k then
    let '(x, e) := decode_float w v in (Carton.mk id l x h wt q fr ar, e)
  else if key_match "height" k then
    let '(x, e) := decode_float h v in (Carton.mk id l w x wt q fr ar, e)
  else if key_match "weight" k then
    let '(x, e) := decode_float wt v in (Carton.mk id l w h x q fr ar, e)
  else if key_match "quantity" k then
    let '(x, e) := decode_int q v in (Carton.mk id l w h wt x fr ar, e)
  else if key_match "fragile" k then
    let '(x, e) := decode_bool fr v in (Carton.mk id l w h wt q x ar, e)
  else if key_match "allow_rotation" k then
    let '(x, e) := decode_bool ar v in (Carton.mk id l w h wt q fr x, e)
  else (c, None).

Definition decode_carton : Carton.t -> json -> Carton.t * option json_error :=
  decode_object carton_set "palletizer.Carton".

Definition constraints_set (p : PackingConstraints.t) (k : string) (v : json)
  : PackingConstraints.t * option json_error :=
  let '(PackingConstraints.mk a b c d) := p in
  if key_match "max_length" k then
    let '(x, e) := decode_float a v in (PackingConstraints.mk x b c d, e)
  else if key_match "max_width" k then
    let '(x, e) := decode_float b v in (PackingConstraints.mk a x c d, e)
  else if key_match "max_height" k then
    let '(x, e) := decode_float c v in (PackingConstraints.mk a b x d, e)
  else if key_match "max_weight" k then
    let '(x, e) := decode_float d v in (PackingConstraints.mk a b c x, e)
  else (p, None).

Definition options_set (o : PackingOptions.t) (k : string) (v : json)
  : PackingOptions.t * option json_error :=
  let '(PackingOptions.mk s) := o in
  if key_match "support_percentage" k then
    let '(x, e) := decode_float s v in (PackingOptions.mk x, e)
  else (o, None).

Definition request_set (r : PackingRequest.t) (k : string) (v : json)
  : PackingRequest.t * option json_error :=
  let '(PackingRequest.mk cs pc po) := r in
  if key_match "cartons" k then
    let '(x, e) := decode_slice decode_carton Carton.zero "[]palletizer.Carton" cs v in
    (PackingRequest.mk x pc po, e)
  else if key_match "packing_constraints" k then
    let '(x, e) := decode_object constraints_set "palletizer.PackingConstraints" pc v in
    (PackingRequest.mk cs x po, e)
  else if key_match "packing_options" k then
    let '(x, e) := decode_object options_set "palletizer.PackingOptions" po v in
    (PackingRequest.mk cs pc x, e)
  else (r, None).

(** [var out PackingRequest; err := json.Unmarshal(data, &out)]: the value
    written and the error returned. *)
Definition json_Unmarshal_request (j : json) : PackingRequest.t * option json_error :=
  decode_object request_set "palletizer.PackingRequest" PackingRequest.zero j.

(** ** The HTTP layer and the rest of the runtime *)

(** An error value of the standard library, by its message. *)
Inductive go_error := GoError (msg : string).

Definition go_error_message (e : go_error) : string :=
  match e with GoError m => m end.

(** A context.Context; [None] is the nil context, [ctx_Err] is what
    [ctx.Err()] reports (cancellation or an expired deadline). *)
Record ctx_value := mk_ctx { ctx_Err : option go_error }.
Definition Context := option ctx_value.

Record http_request := mk_req {
  req_Method : string;
  req_URL : string;
  req_Header : list (string * string);
  req_Body : string;
  req_Context : ctx_value }.

Record http_response := mk_resp {
  resp_StatusCode : Z;
  resp_Body : string }.

Definition http_StatusOK : Z := 200.

(** http.Client: only its timeout (in nanoseconds) is configured here. *)
Record http_Client := mk_http_client { Timeout : Z }.

Record Client := mk_client {
  baseURL : string;
  httpClient : http_Client }.

(** The operations of the standard library Pack calls that do I/O, or
    whose internals do not matter here. *)
Record runtime := mk_runtime {
  (** encodeState: the bytes of a JSON value *)
  json_print : json -> string;
  (** net/url.Parse: the error it reports for a URL, if any *)
  url_parse : string -> option go_error;
  (** http.Client.Do: one round trip *)
  http_Do : http_Client -> http_request -> result http_response go_error;
  (** io.ReadAll(resp.Body) *)
  io_ReadAll : http_response -> result string go_error;
  (** [var response PackingResponse; json.Unmarshal(body, &response)] *)
  json_Unmarshal_response : string -> result PackingResponse.t json_error }.

Definition is_token_char (c : ascii) : bool :=
  byte_in c 48 57 || byte_in c 65 90 || byte_in c 97 122 ||
  existsb (fun d => Ascii.eqb c d)
    ["!"; "#"; "$"; "%"; "&"; "'"; "*"; "+"; "-"; "."; "^"; "_"; "`"; "|"; "~"]%char.

Fixpoint all_token_chars (s : string) : bool :=
  match s with
  | EmptyString => true
  | String c r => is_token_char c && all_token_chars r
  end.

Definition validMethod (m : string) : bool :=
  negb (String.eqb m "") && all_token_chars m.

(** http.NewRequestWithContext. *)
Definition NewRequestWithContext (rt : runtime) (ctx : Context) (method url : string)
  (body : string) : result http_request go_error :=
  let method := if String.eqb method "" then "GET" else method in
  if negb (validMethod method) then Err (GoError ("net/http: invalid method " ++ method))
  else
    match ctx with
    | None => Err (GoError "net/http: nil Context")
    | Some cv =>
      match url_parse rt url with
      | Some e => Err e
      | None => Ok (mk_req method url [] body cv)
      end
    end.

(** Header.Set: replaces every value of the key. *)
Definition header_set (r : http_request) (k v : string) : http_request :=
  mk_req (req_Method r) (req_URL r)
    ((k, v) :: filter (fun kv => negb (String.eqb (fst kv) k)) (req_Header r))
    (req_Body r) (req_Context r).

(** json.Marshal(request). *)
Definition json_Marshal (rt : runtime) (request : option PackingRequest.t)
  : result string json_error :=
  j <- encode_request request ;; Ok (json_print rt j).

(** ** The client (client.go, lines 43-77 and 185-221) *)

Definition defaultAPIURL : string := "https://api.palletizer.app".

(** 120 * time.Second *)
Definition default_timeout : Z := 120 * 1000000000.

Definition New : Client := mk_client defaultAPIURL (mk_http_client default_timeout).

Definition NewWithEndpoint (u : string) : Client := mk_client u (mk_http_client default_timeout).

Definition NewWithHTTPClient (h : http_Client) : Client := mk_client defaultAPIURL h.

(** The errors Pack builds with fmt.Errorf, one per call site. *)
Inductive pack_error :=
| ErrMarshal (err : json_error)
| ErrCreateRequest (err : go_error)
| ErrSend (err : go_error)
| ErrRead (err : go_error)
| ErrParse (err : json_error)
| ErrAPI (status : Z) (msg : string)
| ErrStatus (status : Z) (body : string).

Fixpoint decimal_digits (fuel : nat) (n : Z) (acc : string) : string :=
  match fuel with
  | O => acc
  | S fuel' =>
    let acc' := String (ascii_of_N (48 + Z.to_N (n mod 10))) acc in
    if n <? 10 then acc' else decimal_digits fuel' (n / 10) acc'
  end.

(** fmt's %d. *)
Definition string_of_Z (z : Z) : string :=
  if z <? 0 then "-" ++ decimal_digits 20 (- z) "" else decimal_digits 20 z "".

(** err.Error() of the errors Pack returns. *)
Definition pack_error_message (e : pack_error) : string :=
  match e with
  | ErrMarshal err => "failed to marshal request: " ++ json_error_message err
  | ErrCreateRequest err => "failed to create request: " ++ go_error_message err
  | ErrSend err => "failed to send request: " ++ go_error_message err
  | ErrRead err => "failed to read response: " ++ go_error_message err
  | ErrParse err => "failed to parse response: " ++ json_error_message err
  | ErrAPI s msg => "API error (status " ++ string_of_Z s ++ "): " ++ msg
  | ErrStatus s body => "API returned status " ++ string_of_Z s ++ ": " ++ body
  end.

(** What Pack does to the outside world, in order. *)
Inductive event :=
| EvDo (req : http_request)
| EvCloseBody.

(** Go's [( *PackingResponse, error)]; [None] is nil. *)
Definition pack_result := (option PackingResponse.t * option pack_error)%type.

Definition Pack (rt : runtime) (c : Client) (ctx : Context)
  (request : option PackingRequest.t) : list event * pack_result :=
  match json_Marshal rt request with
  | Err err => ([], (None, Some (ErrMarshal err)))
  | Ok jsonData =>
    match NewRequestWithContext rt ctx "POST" (baseURL c ++ "/api/v1/pack") jsonData with
    | Err err => ([], (None, Some (ErrCreateRequest err)))
    | Ok req0 =>
      let req := header_set req0 "Content-Type" "application/json" in
      match http_Do rt (httpClient c) req with
      | Err err => ([EvDo req], (None, Some (ErrSend err)))
      | Ok resp =>
        (* defer resp.Body.Close(): closed on every return below *)
        ([EvDo req; EvCloseBody],
         match io_ReadAll rt resp with
         | Err err => (None, Some (ErrRead err))
         | Ok body =>
           match json_Unmarshal_response rt body with
           | Err err => (None, Some (ErrParse err))
           | Ok response =>
             if negb (resp_StatusCode resp =? http_StatusOK) then
               if negb (String.eqb (PackingResponse.Error response) "") then
                 (None, Some (ErrAPI (resp_StatusCode resp) (PackingResponse.Error response)))
               else (None, Some (ErrStatus (resp_StatusCode resp) body))
             else (Some response, None)
           end
         end)
      end
    end
  end.

(** ** Presets and unit conversions (client.go, lines 223-261) *)

Definition StandardPallet : PackingConstraints.t :=
  PackingConstraints.mk 1016.0%float 1828.8%float 1219.2%float 680388.0%float.

Definition StandardPallet4048 : PackingConstraints.t :=
  PackingConstraints.mk 1016.0%float 1219.2%float 1219.2%float 680388.0%float.

Definition InchesToMM (inches : float) : float := (inches * 25.4)%float.

Definition PoundsToGrams (pounds : float) : float := (pounds * 453.592)%float.

Definition MMToInches (mm : float) : float := (mm / 25.4)%float.

Definition GramsToPounds (grams : float) : float := (grams / 453.592)%float.

(** ** Predicates and fixtures used by the statements below *)

Definition header_get (h : list (string * string)) (k : string) : option string :=
  option_map snd (find (fun kv => String.eqb (fst kv) k) h).

(** [sub] occurs in [s]. *)
Definition contains (sub s : string) : bool :=
  match String.index 0 sub s with Some _ => true | None => false end.

Definition carton_floats_finite (c : Carton.t) : bool :=
  is_finite (Carton.Length c) && is_finite (Carton.Width c) &&
  is_finite (Carton.Height c) && is_finite (Carton.Weight c).

Definition constraints_finite (p : PackingConstraints.t) : bool :=
  is_finite (PackingConstraints.MaxLength p) && is_finite (PackingConstraints.MaxWidth p) &&
  is_finite (PackingConstraints.MaxHeight p) && is_finite (PackingConstraints.MaxWeight p).

(** Every float64 field of the request is finite. *)
Definition request_floats_finite (request : option PackingRequest.t) : bool :=
  match request with
  | None => true
  | Some r =>
    forallb carton_floats_finite (slice_to_list (PackingRequest.Cartons r)) &&
    constraints_finite (PackingRequest.PackingConstraints r) &&
    is_finite (PackingOptions.SupportPercentage (PackingRequest.PackingOptions r))
  end.

(** A valid carton: finite reals, a UTF-8 text identifier, and a quantity
    that fits Go's int. *)
Definition carton_valid (c : Carton.t) : bool :=
  carton_floats_finite c && utf8_valid (Carton.ID c) && int64_in_range (Carton.Quantity c).

Definition request_valid (r : PackingRequest.t) : bool :=
  forallb carton_valid (slice_to_list (PackingRequest.Cartons r)) &&
  constraints_finite (PackingRequest.PackingConstraints r) &&
  is_finite (PackingOptions.SupportPercentage (PackingRequest.PackingOptions r)).

(** A runtime whose server answers every request with [status] and [body],
    and whose decoder gives [decoded] for any body. *)
Definition server_runtime (status : Z) (body : string)
  (decoded : result PackingResponse.t json_error) : runtime :=
  mk_runtime (fun _ => "{}") (fun _ => None)
    (fun _ _ => Ok (mk_resp status body)) (fun resp => Ok (resp_Body resp))
    (fun _ => decoded).

(** The request of client_test.go's TestPack. *)
Definition test_carton : Carton.t :=
  Carton.mk "BOX001" 609.6%float 457.2%float 406.4%float 18143.68%float 1 false true.

Definition test_request : PackingRequest.t :=
  PackingRequest.mk (Some [test_carton]) StandardPallet (PackingOptions.mk 80.0%float).

(** The same request with a NaN length. *)
Definition nan_request : PackingRequest.t :=
  PackingRequest.mk
    (Some [Carton.mk "BOX001" nan 457.2%float 406.4%float 18143.68%float 1 false true])
    StandardPallet (PackingOptions.mk 80.0%float).

Definition test_summary : PackingSummary.t := PackingSummary.mk 1 1 95.0%float 5.

Definition soft_error_response : PackingResponse.t :=
  PackingResponse.mk (Some []) test_summary "no pallet fits".

Definition api_error_response : PackingResponse.t :=
  PackingResponse.mk None (PackingSummary.mk 0 0 0%float 0) "carton too large".

(** The error json.Unmarshal reports for the body [oops]. *)
Definition oops_error : json_error :=
  SyntaxError "invalid character 'o' looking for beginning of value" 1.

Definition test_ctx : Context := Some (mk_ctx None).

(** The value of a finite float ([None] for the infinities and NaN). *)
Definition Q_of_mant_exp (m e : Z) : Q :=
  if 0 <=? e then inject_Z (m * 2 ^ e) else Qmake m (Z.to_pos (2 ^ (- e))).

Definition sf_value (x : spec_float) : option Q :=
  match x with
  | S754_zero _ => Some 0%Q
  | S754_finite s m e => Some (Q_of_mant_exp (if s then Zneg m else Zpos m) e)
  | _ => None
  end.

Definition float_value (f : float) : option Q := sf_value (Prim2SF f).

(** [f] is finite and within [tol] of [target]. *)
Definition float_near (f : float) (target tol : Q) : bool :=
  match float_value f with
  | Some v => Qle_bool (Qabs (v - target)) tol
  | None => false
  end.

Definition pack_url : string := defaultAPIURL ++ "/api/v1/pack".

Definition built_request : http_request := mk_req "POST" pack_url [] "{}" (mk_ctx None).

Definition dq : string := String (ascii_of_nat 34) EmptyString.

(** The body [{"error": "carton too large"}]. *)
Definition api_error_body : string :=
  "{" ++ dq ++ "error" ++ dq ++ ": " ++ dq ++ "carton too large" ++ dq ++ "}".

Definition empty_error_response : PackingResponse.t :=
  PackingResponse.mk None (PackingSummary.mk 0 0 0%float 0) "".

Definition oops_runtime : runtime := server_runtime 500 "oops" (Err oops_error).

(** The number of HTTP round trips in a trace. *)
Definition count_requests (tr : list event) : nat :=
  List.length (filter (fun ev => match ev with EvDo _ => true | EvCloseBody => false end) tr).

(** A runtime whose url.Parse rejects every URL. *)
Definition url_error : go_error := GoError "parse error".

Definition bad_url_runtime : runtime :=
  mk_runtime (fun _ => "{}") (fun _ => Some url_error)
    (fun _ _ => Ok (mk_resp 200 "{}")) (fun resp => Ok (resp_Body resp))
    (fun _ => Ok empty_error_response).

(** ** Rounding analysis of binary64 [*] and [/] (the unit conversions)

    [P2 e] is 2^e in Q. [locate r w] says the shift record [r] of SpecFloat's
    rounding (a truncated mantissa, a round bit and a sticky bit) describes
    the exact value [w] at the current scale. *)

Definition P2 (e : Z) : Q := Qpower (2 # 1) e.

Definition locate (r : shr_record) (w : Q) : Prop :=
  0 <= shr_m r /\
  let m := inject_Z (shr_m r) in
  match shr_r r, shr_s r with
  | false, false => w == m
  | false, true => m < w /\ w < m + (1 # 2)
  | true, false => w == m + (1 # 2)
  | true, true => m + (1 # 2) < w /\ w < m + 1
  end%Q.

(** [r] is within 2^-51 relative and 2^-1073 absolute of [x]; both finite. *)
Definition within_tol (r x : float) : bool :=
  match float_value r, float_value x with
  | Some a, Some b => Qle_bool (Qabs (a - b)) ((1 # 2 ^ 51) * Qabs b + (1 # 2 ^ 1073))
  | _, _ => false
  end.

(** * Properties of Pack *)

Section PackProperties.
Variable rt : runtime.
Variable c : Client.
Variable ctx : Context.
Variable request : option PackingRequest.t.

Let url := baseURL c ++ "/api/v1/pack".

  (** The steps before the response is in hand. *)
Lemma Pack_reaches_response jsonData req0 resp :
    json_Marshal rt request = Ok jsonData ->
    NewRequestWithContext rt ctx "POST" url jsonData = Ok req0 ->
    http_Do rt (httpClient c) (header_set req0 "Content-Type" "application/json") = Ok resp ->
    Pack rt c ctx request =
      ([EvDo (header_set req0 "Content-Type" "application/json"); EvCloseBody],
       match io_ReadAll rt resp with
       | Err err => (None, Some (ErrRead err))
       | Ok body =>
         match json_Unmarshal_response rt body with
         | Err err => (None, Some (ErrParse err))
         | Ok response =>
           if negb (resp_StatusCode resp =? http_StatusOK) then
             if negb (String.eqb (PackingResponse.Error response) "") then
               (None, Some (ErrAPI (resp_StatusCode resp) (PackingResponse.Error response)))
             else (None, Some (ErrStatus (resp_StatusCode resp) body))
           else (Some response, None)
         end
       end).
  Proof.
    intros Hm Hr Hd. unfold Pack. fold url. rewrite Hm, Hr, Hd. reflexivity.
  Qed.

  (** C1: with status 200 and a body that decodes, Pack returns the decoded
      response and a nil error, whatever its [Error] field holds. *)
Theorem Pack_ok_status_returns_decoded jsonData req0 resp body response :
    json_Marshal rt request = Ok jsonData ->
    NewRequestWithContext rt ctx "POST" url jsonData = Ok req0 ->
    http_Do rt (httpClient c) (header_set req0 "Content-Type" "application/json") = Ok resp ->
    resp_StatusCode resp = http_StatusOK ->
    io_ReadAll rt resp = Ok body ->
    json_Unmarshal_response rt body = Ok response ->
    snd (Pack rt c ctx request) = (Some response, None).
  Proof.
    intros Hm Hr Hd Hs Hb Hu.
    rewrite (Pack_reaches_response jsonData req0 resp Hm Hr Hd), Hb, Hu, Hs.
    reflexivity.
  Qed.

  (** C2: with a status other than 200 and a body that decodes, Pack fails
      with the status code and the decoded [error] text when it is
      non-empty, else with the status code and the raw body. *)
Theorem Pack_bad_status_fails jsonData req0 resp body response :
    json_Marshal rt request = Ok jsonData ->
    NewRequestWithContext rt ctx "POST" url jsonData = Ok req0 ->
    http_Do rt (httpClient c) (header_set req0 "Content-Type" "application/json") = Ok resp ->
    resp_StatusCode resp <> http_StatusOK ->
    io_ReadAll rt resp = Ok body ->
    json_Unmarshal_response rt body = Ok response ->
    snd (Pack rt c ctx request) =
      (None, Some (if String.eqb (PackingResponse.Error response) ""
                   then ErrStatus (resp_StatusCode resp) body
                   else ErrAPI (resp_StatusCode resp) (PackingResponse.Error response))).
  Proof.
    intros Hm Hr Hd Hs Hb Hu.
    rewrite (Pack_reaches_response jsonData req0 resp Hm Hr Hd), Hb, Hu.
    apply Z.eqb_neq in Hs. rewrite Hs. cbn.
    destruct (String.eqb (PackingResponse.Error response) ""); reflexivity.
  Qed.

  (** C3 (as amended): once a response is in hand, Pack reads the whole
      body and decodes it whatever the status code; a failed read fails with
      the read error, and a failed decode fails with the decoder's own error
      wrapped as a parse failure (the error carries no copy of the body). *)
Theorem Pack_decodes_before_status_check jsonData req0 resp :
    json_Marshal rt request = Ok jsonData ->
    NewRequestWithContext rt ctx "POST" url jsonData = Ok req0 ->
    http_Do rt (httpClient c) (header_set req0 "Content-Type" "application/json") = Ok resp ->
    fst (Pack rt c ctx request) =
      [EvDo (header_set req0 "Content-Type" "application/json"); EvCloseBody] /\
    match io_ReadAll rt resp with
    | Err err => snd (Pack rt c ctx request) = (None, Some (ErrRead err))
    | Ok body =>
      match json_Unmarshal_response rt body with
      | Err err => snd (Pack rt c ctx request) = (None, Some (ErrParse err))
      | Ok _ => True
      end
    end.
  Proof.
    intros Hm Hr Hd.
    rewrite (Pack_reaches_response jsonData req0 resp Hm Hr Hd). split; [reflexivity|].
    destruct (io_ReadAll rt resp) as [body|err]; [|reflexivity].
    destruct (json_Unmarshal_response rt body); reflexivity.
  Qed.

  (** C4: when serialization fails, Pack returns the error and does
      nothing else: no request is built or sent. *)
Theorem Pack_marshal_failure_no_network err :
    json_Marshal rt request = Err err ->
    Pack rt c ctx request = ([], (None, Some (ErrMarshal err))).
  Proof.
    intros Hm. unfold Pack. rewrite Hm. reflexivity.
  Qed.

  (** C9: Pack returns either a response decoded from the body it received
      (with status 200) and a nil error, or a nil response and an error. *)
Theorem Pack_response_xor_error :
    match snd (Pack rt c ctx request) with
    | (Some response, None) =>
      exists jsonData req0 resp body,
        json_Marshal rt request = Ok jsonData /\
        NewRequestWithContext rt ctx "POST" url jsonData = Ok req0 /\
        http_Do rt (httpClient c) (header_set req0 "Content-Type" "application/json") = Ok resp /\
        resp_StatusCode resp = http_StatusOK /\
        io_ReadAll rt resp = Ok body /\
        json_Unmarshal_response rt body = Ok response
    | (None, Some _) => True
    | _ => False
    end.
  Proof.
    unfold Pack. fold url.
    destruct (json_Marshal rt request) as [jsonData|err] eqn:Hm; cbn [fst snd]; [|exact I].
    destruct (NewRequestWithContext rt ctx "POST" url jsonData) as [req0|err] eqn:Hr;
      cbn [fst snd]; [|exact I].
    destruct (http_Do rt (httpClient c) (header_set req0 "Content-Type" "application/json"))
      as [resp|err] eqn:Hd; cbn [fst snd]; [|exact I].
    destruct (io_ReadAll rt resp) as [body|err] eqn:Hb; cbn [fst snd]; [|exact I].
    destruct (json_Unmarshal_response rt body) as [response|err] eqn:Hu; cbn [fst snd]; [|exact I].
    destruct (resp_StatusCode resp =? http_StatusOK) eqn:Hs; cbn [fst snd negb].
    - apply Z.eqb_eq in Hs. exists jsonData, req0, resp, body. tauto.
    - destruct (String.eqb (PackingResponse.Error response) ""); exact I.
  Qed.
End PackProperties.

Section PackRequest.
Variable rt : runtime.
Variable c : Client.
Variable ctx : Context.
Variable request : option PackingRequest.t.

Lemma NewRequestWithContext_ok method url body req :
    validMethod method = true ->
    NewRequestWithContext rt ctx method url body = Ok req ->
    req_Method req = method /\ req_URL req = url /\ req_Header req = [] /\ req_Body req = body.
  Proof.
    intros Hv H. unfold NewRequestWithContext in H.
    destruct (String.eqb method "") eqn:He.
    - apply String.eqb_eq in He. subst method. discriminate Hv.
    - rewrite Hv in H. cbn [negb] in H.
      destruct ctx as [cv|]; [|discriminate H].
      destruct (url_parse rt url); [discriminate H|].
      injection H as <-. cbn. auto.
  Qed.

  (** C5 (as amended): Pack makes at most one HTTP round trip. When the
      request serializes and the http.Request is built, it makes exactly
      one: a POST to [<base>/api/v1/pack] with [Content-Type:
      application/json] and the serialized request as body, and when that
      call fails Pack returns the send error with no second attempt. When
      serialization or request construction fails it makes none. *)
Theorem Pack_single_post :
    (count_requests (fst (Pack rt c ctx request)) <= 1)%nat /\
    match json_Marshal rt request with
    | Err _ => fst (Pack rt c ctx request) = []
    | Ok jsonData =>
      match NewRequestWithContext rt ctx "POST" (baseURL c ++ "/api/v1/pack") jsonData with
      | Err _ => fst (Pack rt c ctx request) = []
      | Ok req0 =>
        let req := header_set req0 "Content-Type" "application/json" in
        req_Method req = "POST" /\
        req_URL req = baseURL c ++ "/api/v1/pack" /\
        header_get (req_Header req) "Content-Type" = Some "application/json" /\
        req_Body req = jsonData /\
        count_requests (fst (Pack rt c ctx request)) = 1%nat /\
        hd_error (fst (Pack rt c ctx request)) = Some (EvDo req) /\
        match http_Do rt (httpClient c) req with
        | Err err => Pack rt c ctx request = ([EvDo req], (None, Some (ErrSend err)))
        | Ok _ => True
        end
      end
    end.
  Proof.
    unfold Pack.
    destruct (json_Marshal rt request) as [jsonData|err] eqn:Hm;
      [|split; [cbn; lia | reflexivity]].
    destruct (NewRequestWithContext rt ctx "POST" (baseURL c ++ "/api/v1/pack") jsonData)
      as [req0|err] eqn:Hr; [|split; [cbn; lia | reflexivity]].
    destruct (NewRequestWithContext_ok "POST" _ _ _ eq_refl Hr) as (HM & HU & HH & HB).
    destruct (http_Do rt (httpClient c) (header_set req0 "Content-Type" "application/json"))
      as [resp|err] eqn:Hd; cbn [fst count_requests filter length].
    - split; [cbn; lia|]. unfold header_set, header_get. cbn.
      rewrite HM, HU, HH, HB. cbn. repeat split.
    - split; [cbn; lia|]. unfold header_set, header_get. cbn.
      rewrite HM, HU, HH, HB. cbn. repeat split.
  Qed.
End PackRequest.

(** * Further properties of Pack and of the clients *)

Lemma NewRequestWithContext_ctx rt ctx method url body req :
  NewRequestWithContext rt ctx method url body = Ok req ->
  ctx = Some (req_Context req) /\ url_parse rt url = None.
Proof.
  unfold NewRequestWithContext.
  destruct (negb (validMethod (if String.eqb method "" then "GET" else method))); [discriminate|].
  destruct ctx as [cv|]; [|discriminate].
  destruct (url_parse rt url); [discriminate|].
  intros H. injection H as <-. split; reflexivity.
Qed.

(** Every request Pack hands to http.Client.Do is the one it built. *)
Lemma Pack_sent_request rt c ctx request req :
  In (EvDo req) (fst (Pack rt c ctx request)) ->
  exists jsonData req0,
    json_Marshal rt request = Ok jsonData /\
    NewRequestWithContext rt ctx "POST" (baseURL c ++ "/api/v1/pack") jsonData = Ok req0 /\
    req = header_set req0 "Content-Type" "application/json".
Proof.
  unfold Pack.
  destruct (json_Marshal rt request) as [jsonData|err] eqn:Hm; [|cbn; tauto].
  destruct (NewRequestWithContext rt ctx "POST" (baseURL c ++ "/api/v1/pack") jsonData)
    as [req0|err] eqn:Hr; [|cbn; tauto].
  intros H. exists jsonData, req0. split; [reflexivity|]. split; [exact Hr|].
  destruct (http_Do rt (httpClient c) (header_set req0 "Content-Type" "application/json"));
    cbn [fst In] in H.
  - destruct H as [H|[H|[]]]; [injection H as H; symmetry; exact H | discriminate H].
  - destruct H as [H|[]]. injection H as H. symmetry. exact H.
Qed.

Lemma encode_float_err f e : encode_float f = Err e ->
  e = UnsupportedValueError "NaN" \/ e = UnsupportedValueError "+Inf" \/
  e = UnsupportedValueError "-Inf".
Proof.
  unfold encode_float.
  destruct (is_nan f); [intros H; injection H as <-; auto|].
  destruct (is_infinity f); [|discriminate].
  destruct (get_sign f); intros H; injection H as <-; auto.
Qed.

Ltac float_err :=
  match goal with
  | H : match encode_float ?f with Ok _ => _ | Err _ => _ end = Err _ |- _ =>
    let E := fresh "E" in
    destruct (encode_float f) eqn:E; [|injection H as <-; exact (encode_float_err _ _ E)]
  end.

Lemma encode_carton_err c e : encode_carton c = Err e ->
  e = UnsupportedValueError "NaN" \/ e = UnsupportedValueError "+Inf" \/
  e = UnsupportedValueError "-Inf".
Proof. unfold encode_carton. intros H. repeat float_err. discriminate H. Qed.

Lemma encode_constraints_err p e : encode_constraints p = Err e ->
  e = UnsupportedValueError "NaN" \/ e = UnsupportedValueError "+Inf" \/
  e = UnsupportedValueError "-Inf".
Proof. unfold encode_constraints. intros H. repeat float_err. discriminate H. Qed.

Lemma encode_options_err o e : encode_options o = Err e ->
  e = UnsupportedValueError "NaN" \/ e = UnsupportedValueError "+Inf" \/
  e = UnsupportedValueError "-Inf".
Proof. unfold encode_options. intros H. repeat float_err. discriminate H. Qed.

Lemma encode_list_err {A} (enc : A -> result json json_error) (P : json_error -> Prop) :
  (forall x e, enc x = Err e -> P e) ->
  forall l e, encode_list enc l = Err e -> P e.
Proof.
  intros Henc l. induction l as [|x l IH]; cbn; intros e H; [discriminate H|].
  destruct (enc x) as [j|e'] eqn:Ex; [|injection H as <-; exact (Henc x e' Ex)].
  destruct (encode_list enc l) as [js|e'] eqn:El; [discriminate H|].
  injection H as <-. exact (IH e' eq_refl).
Qed.

Lemma json_Marshal_err rt request e : json_Marshal rt request = Err e ->
  e = UnsupportedValueError "NaN" \/ e = UnsupportedValueError "+Inf" \/
  e = UnsupportedValueError "-Inf".
Proof.
  unfold json_Marshal, encode_request.
  destruct request as [r|]; [|discriminate]. unfold encode_request_value.
  destruct (encode_slice encode_carton (PackingRequest.Cartons r)) as [cs|e'] eqn:Es.
  - destruct (encode_constraints (PackingRequest.PackingConstraints r)) as [pc|e'] eqn:Ec.
    + destruct (encode_options (PackingRequest.PackingOptions r)) as [po|e'] eqn:Eo;
        [discriminate|].
      intros H. injection H as <-. exact (encode_options_err _ _ Eo).
    + intros H. injection H as <-. exact (encode_constraints_err _ _ Ec).
  - intros H. injection H as <-. revert Es. unfold encode_slice.
    destruct (PackingRequest.Cartons r) as [l|]; [|discriminate].
    destruct (encode_list encode_carton l) as [js|e''] eqn:El; [discriminate|].
    intros H. injection H as <-. exact (encode_list_err encode_carton _ encode_carton_err l e'' El).
Qed.

(** X1: every request Pack sends carries the caller's context: Pack
    passes [ctx] to http.NewRequestWithContext, so cancelling it or its
    deadline reaches the round trip. *)
Theorem Pack_request_carries_context rt c ctx request req :
  In (EvDo req) (fst (Pack rt c ctx request)) -> ctx = Some (req_Context req).
Proof.
  intros H. destruct (Pack_sent_request rt c ctx request req H) as [jsonData [req0 [_ [Hr ->]]]].
  exact (proj1 (NewRequestWithContext_ctx _ _ _ _ _ _ Hr)).
Qed.

(** X2: with a nil context Pack never reaches the network: it fails with
    the marshal error when serialization fails, and otherwise with
    http.NewRequestWithContext's "net/http: nil Context" error. *)
Theorem Pack_nil_context_sends_nothing rt c request :
  match json_Marshal rt request with
  | Err err => Pack rt c None request = ([], (None, Some (ErrMarshal err)))
  | Ok _ =>
    Pack rt c None request = ([], (None, Some (ErrCreateRequest (GoError "net/http: nil Context"))))
  end.
Proof.
  unfold Pack. destruct (json_Marshal rt request); reflexivity.
Qed.

(** X3: when url.Parse rejects [<base>/api/v1/pack] (a malformed base URL
    given to NewWithEndpoint), Pack returns that error as a request
    creation failure and sends nothing. *)
Theorem Pack_bad_url_sends_nothing rt c cv request jsonData e :
  json_Marshal rt request = Ok jsonData ->
  url_parse rt (baseURL c ++ "/api/v1/pack") = Some e ->
  Pack rt c (Some cv) request = ([], (None, Some (ErrCreateRequest e))).
Proof.
  intros Hm Hu. unfold Pack. rewrite Hm. unfold NewRequestWithContext. rewrite Hu.
  reflexivity.
Qed.

(** X4: the request is sent to the endpoint the constructor fixed: to
    https://api.palletizer.app/api/v1/pack for a client from New or
    NewWithHTTPClient, and to [baseURL ++ "/api/v1/pack"] for a client from
    NewWithEndpoint [baseURL], and it is a POST. *)
Theorem Pack_client_endpoints rt ctx request h u req :
  (In (EvDo req) (fst (Pack rt New ctx request)) ->
   req_Method req = "POST" /\ req_URL req = "https://api.palletizer.app/api/v1/pack") /\
  (In (EvDo req) (fst (Pack rt (NewWithHTTPClient h) ctx request)) ->
   req_Method req = "POST" /\ req_URL req = "https://api.palletizer.app/api/v1/pack") /\
  (In (EvDo req) (fst (Pack rt (NewWithEndpoint u) ctx request)) ->
   req_Method req = "POST" /\ req_URL req = u ++ "/api/v1/pack").
Proof.
  assert (G : forall c, In (EvDo req) (fst (Pack rt c ctx request)) ->
              req_Method req = "POST" /\ req_URL req = baseURL c ++ "/api/v1/pack").
  { intros c H. destruct (Pack_sent_request rt c ctx request req H) as [jsonData [req0 [_ [Hr ->]]]].
    destruct (NewRequestWithContext_ok rt ctx "POST" _ _ _ eq_refl Hr) as (HM & HU & _).
    cbn. split; assumption. }
  split; [|split]; intros H; apply G in H; exact H.
Qed.

(** X5: a nil *PackingRequest marshals to the JSON [null]: Pack never
    fails to serialize it, and a request it sends has that document as
    its body. *)
Theorem Pack_nil_request rt c ctx :
  json_Marshal rt None = Ok (json_print rt JNull) /\
  (forall err, snd (Pack rt c ctx None) <> (None, Some (ErrMarshal err))) /\
  (forall req, In (EvDo req) (fst (Pack rt c ctx None)) -> req_Body req = json_print rt JNull).
Proof.
  split; [reflexivity|]. split.
  - intros err. unfold Pack. cbn [json_Marshal encode_request].
    destruct (NewRequestWithContext rt ctx "POST" (baseURL c ++ "/api/v1/pack") (json_print rt JNull));
      [|discriminate].
    destruct (http_Do _ _ _); [|discriminate]. cbn [snd].
    destruct (io_ReadAll rt _) as [body|]; [|discriminate].
    destruct (json_Unmarshal_response rt body); [|discriminate].
    destruct (negb _); [destruct (negb _)|]; discriminate.
  - intros req H. destruct (Pack_sent_request rt c ctx None req H) as [jsonData [req0 [Hm [Hr ->]]]].
    injection Hm as <-.
    destruct (NewRequestWithContext_ok rt ctx "POST" _ _ _ eq_refl Hr) as (_ & _ & _ & HB).
    exact HB.
Qed.

(** X6: the only way serialization fails inside Pack is a non-finite
    float64: the wrapped error is json's UnsupportedValueError for NaN,
    +Inf or -Inf. *)
Theorem Pack_marshal_error_kinds rt c ctx request err :
  snd (Pack rt c ctx request) = (None, Some (ErrMarshal err)) ->
  err = UnsupportedValueError "NaN" \/ err = UnsupportedValueError "+Inf" \/
  err = UnsupportedValueError "-Inf".
Proof.
  unfold Pack.
  destruct (json_Marshal rt request) as [jsonData|e] eqn:Hm;
    [|cbn; intros H; injection H as <-; exact (json_Marshal_err rt request e Hm)].
  destruct (NewRequestWithContext rt ctx "POST" (baseURL c ++ "/api/v1/pack") jsonData);
    [|discriminate].
  destruct (http_Do _ _ _); [|discriminate]. cbn [snd].
  destruct (io_ReadAll rt _) as [body|]; [|discriminate].
  destruct (json_Unmarshal_response rt body); [|discriminate].
  destruct (negb _); [destruct (negb _)|]; discriminate.
Qed.

(** * Serialization of the request *)

Lemma encode_float_finite f :
  is_finite f = true -> encode_float f = Ok (JNumber (NFloat f)).
Proof.
  unfold is_finite, encode_float.
  destruct (is_nan f), (is_infinity f); cbn; congruence.
Qed.

Lemma encode_float_nonfinite f :
  is_finite f = false -> exists e, encode_float f = Err e.
Proof.
  unfold is_finite, encode_float.
  destruct (is_nan f), (is_infinity f); cbn; try discriminate; eauto.
Qed.

Ltac float_step f :=
  let E := fresh "E" in
  destruct (is_finite f) eqn:E;
  [ rewrite (encode_float_finite f E)
  | let e := fresh "e" in destruct (encode_float_nonfinite f E) as [e ->]; cbn;
    split; [intros [? ?]; discriminate | discriminate] ].

Lemma encode_carton_ok c :
  (exists j, encode_carton c = Ok j) <-> carton_floats_finite c = true.
Proof.
  destruct c as [id l w h wt q fr ar]. unfold encode_carton, carton_floats_finite. cbn.
  float_step l; float_step w; float_step h; float_step wt; cbn; split; eauto.
Qed.

Lemma encode_list_ok {A} (enc : A -> result json json_error) (ok : A -> bool) :
  (forall x, (exists j, enc x = Ok j) <-> ok x = true) ->
  forall l, (exists js, encode_list enc l = Ok js) <-> forallb ok l = true.
Proof.
  intros Henc. induction l as [|x l IH]; cbn.
  - split; eauto.
  - destruct (enc x) as [j|e] eqn:Ex.
    + assert (ok x = true) as -> by (apply Henc; eauto). cbn.
      destruct (encode_list enc l) as [js|e]; cbn.
      * split; eauto. intros _. apply IH. eauto.
      * split; [intros [js H]; discriminate|]. intros H. apply IH in H. destruct H; discriminate.
    + assert (ok x = false) as ->.
      { destruct (ok x) eqn:Ho; [|reflexivity]. apply Henc in Ho. destruct Ho; congruence. }
      cbn. split; [intros [js H]; discriminate | discriminate].
Qed.

Lemma encode_constraints_ok p :
  (exists j, encode_constraints p = Ok j) <-> constraints_finite p = true.
Proof.
  destruct p as [a b c d]. unfold encode_constraints, constraints_finite. cbn.
  float_step a; float_step b; float_step c; float_step d; cbn; split; eauto.
Qed.

Lemma encode_options_ok o :
  (exists j, encode_options o = Ok j) <-> is_finite (PackingOptions.SupportPercentage o) = true.
Proof.
  destruct o as [s]. unfold encode_options. cbn.
  float_step s; cbn; split; eauto.
Qed.

(** C10: json.Marshal of a request succeeds exactly when every float64
    field of it is finite: under that precondition the "failed to marshal
    request" branch of Pack is unreachable, and a NaN or infinite field
    makes it fail. *)
Theorem marshal_ok_iff_floats_finite rt request :
  (exists data, json_Marshal rt request = Ok data) <-> request_floats_finite request = true.
Proof.
  unfold json_Marshal, request_floats_finite.
  destruct request as [r|]; cbn; [|split; eauto].
  destruct r as [cs pc po]. unfold encode_request_value. cbn.
  assert (Hs : (exists j, encode_slice encode_carton cs = Ok j) <->
               forallb carton_floats_finite (slice_to_list cs) = true).
  { destruct cs as [l|]; cbn; [|split; eauto].
    rewrite <- (encode_list_ok encode_carton carton_floats_finite encode_carton_ok l).
    destruct (encode_list encode_carton l); split; intros [x H]; try discriminate; eauto. }
  pose proof (encode_constraints_ok pc) as Hc.
  pose proof (encode_options_ok po) as Ho.
  destruct (encode_slice encode_carton cs) as [jc|e];
    [|destruct (forallb carton_floats_finite (slice_to_list cs));
      [destruct (proj2 Hs eq_refl); discriminate | cbn; split; [intros [x H]; discriminate | discriminate]]].
  rewrite (proj1 Hs (ex_intro _ jc eq_refl)). cbn.
  destruct (encode_constraints pc) as [jp|e];
    [|destruct (constraints_finite pc);
      [destruct (proj2 Hc eq_refl); discriminate | cbn; split; [intros [x H]; discriminate | discriminate]]].
  rewrite (proj1 Hc (ex_intro _ jp eq_refl)). cbn.
  destruct (encode_options po) as [jo|e];
    [|destruct (is_finite (PackingOptions.SupportPercentage po));
      [destruct (proj2 Ho eq_refl); discriminate | cbn; split; [intros [x H]; discriminate | discriminate]]].
  rewrite (proj1 Ho (ex_intro _ jo eq_refl)). cbn. split; eauto.
Qed.

Lemma utf8_next_app s p r : utf8_next s = Some (p, r) -> (p ++ r)%string = s.
Proof.
  unfold utf8_next. intros H.
  repeat match goal with
         | H : context [match ?x with _ => _ end] |- _ => destruct x
         end; try discriminate H; injection H as <- <-; reflexivity.
Qed.

Lemma utf8_coerce_fuel_valid n s :
  utf8_valid_fuel n s = true -> utf8_coerce_fuel n s = s.
Proof.
  revert s. induction n as [|n IH]; intros s H; [reflexivity|].
  destruct s as [|a rest]; [reflexivity|]. cbn [utf8_valid_fuel utf8_coerce_fuel] in H |- *.
  destruct (utf8_next (String a rest)) as [[p r]|] eqn:En; [|discriminate H].
  rewrite (IH r H). apply utf8_next_app. exact En.
Qed.

Lemma utf8_coerce_valid s : utf8_valid s = true -> utf8_coerce s = s.
Proof. apply utf8_coerce_fuel_valid. Qed.

Lemma encode_carton_valid c :
  carton_valid c = true ->
  encode_carton c =
    Ok (JObject [("id", JString (Carton.ID c));
                 ("length", JNumber (NFloat (Carton.Length c)));
                 ("width", JNumber (NFloat (Carton.Width c)));
                 ("height", JNumber (NFloat (Carton.Height c)));
                 ("weight", JNumber (NFloat (Carton.Weight c)));
                 ("quantity", JNumber (NInt (Carton.Quantity c)));
                 ("fragile", JBool (Carton.Fragile c));
                 ("allow_rotation", JBool (Carton.AllowRotation c))]).
Proof.
  destruct c as [id l w h wt q fr ar].
  unfold carton_valid, carton_floats_finite. cbn.
  intros H. repeat rewrite andb_true_iff in H.
  destruct H as [[[[[Hl Hw] Hh] Hwt] Hid] Hq].
  unfold encode_carton, encode_string.
  cbn [Carton.ID Carton.Length Carton.Width Carton.Height Carton.Weight Carton.Quantity
       Carton.Fragile Carton.AllowRotation].
  rewrite (encode_float_finite _ Hl), (encode_float_finite _ Hw),
    (encode_float_finite _ Hh), (encode_float_finite _ Hwt), (utf8_coerce_valid _ Hid).
  reflexivity.
Qed.

Lemma decode_carton_roundtrip c j :
  carton_valid c = true -> encode_carton c = Ok j ->
  decode_carton Carton.zero j = (c, None).
Proof.
  intros Hv He. rewrite (encode_carton_valid c Hv) in He. injection He as <-.
  destruct c as [id l w h wt q fr ar].
  unfold carton_valid in Hv. cbn in Hv. apply andb_true_iff in Hv as [_ Hq].
  unfold decode_carton, decode_object. cbn.
  rewrite Hq. reflexivity.
Qed.

Lemma decode_elems_roundtrip l js :
  forallb carton_valid l = true -> encode_list encode_carton l = Ok js ->
  decode_elems decode_carton Carton.zero [] js = (l, None).
Proof.
  revert js. induction l as [|x l IH]; intros js Hv He; cbn in He.
  - injection He as <-. reflexivity.
  - cbn in Hv. apply andb_true_iff in Hv as [Hx Hl].
    destruct (encode_carton x) as [j|e] eqn:Ex; [|discriminate He].
    destruct (encode_list encode_carton l) as [js'|e]; [|discriminate He].
    injection He as <-. cbn.
    rewrite (decode_carton_roundtrip x j Hx Ex), (IH js' Hl eq_refl). reflexivity.
Qed.

Lemma constraints_roundtrip p :
  constraints_finite p = true ->
  exists j, encode_constraints p = Ok j /\
    decode_object constraints_set "palletizer.PackingConstraints" PackingConstraints.zero j
      = (p, None).
Proof.
  destruct p as [a b c d]. unfold constraints_finite. cbn. intros H.
  repeat rewrite andb_true_iff in H. destruct H as [[[Ha Hb] Hc] Hd].
  unfold encode_constraints. cbn.
  rewrite (encode_float_finite _ Ha), (encode_float_finite _ Hb),
    (encode_float_finite _ Hc), (encode_float_finite _ Hd).
  eexists; split; [reflexivity|]. reflexivity.
Qed.

Lemma options_roundtrip o :
  is_finite (PackingOptions.SupportPercentage o) = true ->
  exists j, encode_options o = Ok j /\
    decode_object options_set "palletizer.PackingOptions" PackingOptions.zero j = (o, None).
Proof.
  destruct o as [s]. cbn. intros H. unfold encode_options. cbn.
  rewrite (encode_float_finite _ H). eexists; split; reflexivity.
Qed.

(** C8: a valid request (finite reals, UTF-8 text identifiers, quantities
    within Go's int) serializes, and decoding the document into a fresh
    PackingRequest gives back the same value with no error. *)
Theorem request_json_roundtrip r :
  request_valid r = true ->
  exists j, encode_request (Some r) = Ok j /\ json_Unmarshal_request j = (r, None).
Proof.
  destruct r as [cs pc po]. unfold request_valid. cbn. intros H.
  repeat rewrite andb_true_iff in H. destruct H as [[Hcs Hpc] Hpo].
  destruct (constraints_roundtrip pc Hpc) as [jp [Ep Dp]].
  destruct (options_roundtrip po Hpo) as [jo [Eo Do]].
  unfold encode_request_value. cbn.
  destruct cs as [l|]; cbn in Hcs |- *.
  - assert (Hfin : forallb carton_floats_finite l = true).
    { rewrite forallb_forall in Hcs |- *. intros x Hx. specialize (Hcs x Hx).
      unfold carton_valid in Hcs.
      apply andb_true_iff in Hcs as [Hcs _]. apply andb_true_iff in Hcs as [Hcs _]. exact Hcs. }
    destruct (proj2 (encode_list_ok encode_carton carton_floats_finite encode_carton_ok l) Hfin)
      as [js Ejs].
    rewrite Ejs, Ep, Eo. cbn. eexists; split; [reflexivity|].
    unfold json_Unmarshal_request, decode_object. cbn.
    rewrite (decode_elems_roundtrip l js Hcs Ejs). cbn.
    rewrite Dp. cbn. rewrite Do. reflexivity.
  - rewrite Ep, Eo. cbn. eexists; split; [reflexivity|].
    unfold json_Unmarshal_request, decode_object. cbn.
    rewrite Dp. cbn. rewrite Do. reflexivity.
Qed.

(** * The presets *)

(** C6: the presets are the stated literals: StandardPallet is
    {1016.0, 1828.8, 1219.2, 680388.0} and StandardPallet4048 is
    {1016.0, 1219.2, 1219.2, 680388.0}; 1016 and 680388 are exact, and
    1828.8 and 1219.2 are the float64 values nearest those decimals (within
    half an ulp, 2^-43). *)
Theorem standard_pallet_values :
  StandardPallet = PackingConstraints.mk 1016.0%float 1828.8%float 1219.2%float 680388.0%float /\
  StandardPallet4048 = PackingConstraints.mk 1016.0%float 1219.2%float 1219.2%float 680388.0%float /\
  float_near (PackingConstraints.MaxLength StandardPallet) 1016 0 = true /\
  float_near (PackingConstraints.MaxWidth StandardPallet) (18288 # 10) (1 # 2 ^ 43) = true /\
  float_near (PackingConstraints.MaxHeight StandardPallet) (12192 # 10) (1 # 2 ^ 43) = true /\
  float_near (PackingConstraints.MaxWeight StandardPallet) 680388 0 = true /\
  float_near (PackingConstraints.MaxLength StandardPallet4048) 1016 0 = true /\
  float_near (PackingConstraints.MaxWidth StandardPallet4048) (12192 # 10) (1 # 2 ^ 43) = true /\
  float_near (PackingConstraints.MaxHeight StandardPallet4048) (12192 # 10) (1 # 2 ^ 43) = true /\
  float_near (PackingConstraints.MaxWeight StandardPallet4048) 680388 0 = true.
Proof.
  split; [reflexivity|]. split; [reflexivity|].
  repeat split; vm_compute; reflexivity.
Qed.

(** * The unit conversions *)

Lemma P2_pos e : (0 < P2 e)%Q.
Proof. apply Qpower_0_lt. reflexivity. Qed.

Lemma P2_add a b : (P2 (a + b) == P2 a * P2 b)%Q.
Proof. unfold P2. apply Qpower_plus. discriminate. Qed.

Lemma P2_Z n : 0 <= n -> (P2 n == inject_Z (2 ^ n))%Q.
Proof. intros. unfold P2. rewrite Zpower_Qpower by lia. reflexivity. Qed.

Lemma P2_le a b : a <= b -> (P2 a <= P2 b)%Q.
Proof. intros. apply Qpower_le_compat_l; [lia | discriminate]. Qed.

Lemma P2_1 : (P2 1 == 2)%Q.
Proof. reflexivity. Qed.

Lemma P2_m1 : (P2 (-1) == 1 # 2)%Q.
Proof. reflexivity. Qed.

Lemma inject_Z_xO p : inject_Z (Zpos (xO p)) = (2 * inject_Z (Zpos p))%Q.
Proof. rewrite (Pos2Z.inj_xO p), inject_Z_mult. reflexivity. Qed.

Lemma inject_Z_xI p : inject_Z (Zpos (xI p)) = (2 * inject_Z (Zpos p) + 1)%Q.
Proof. rewrite (Pos2Z.inj_xI p), inject_Z_plus, inject_Z_mult. reflexivity. Qed.

Lemma locate_shr_1 r w : locate r w -> locate (shr_1 r) (w * (1 # 2)).
Proof.
  destruct r as [m rb sb]. unfold locate; cbn. intros [Hm H].
  destruct m as [|p|p]; [| |lia].
  - change (inject_Z 0) with 0%Q in *.
    destruct rb, sb; cbn; (split; [lia|]); change (inject_Z 0) with 0%Q; lra.
  - destruct p as [p|p|]; cbn.
    + rewrite inject_Z_xI in H.
      destruct rb, sb; cbn; (split; [lia|]); lra.
    + rewrite inject_Z_xO in H.
      destruct rb, sb; cbn; (split; [lia|]); lra.
    + change (inject_Z 1) with 1%Q in H.
      destruct rb, sb; cbn; (split; [lia|]); change (inject_Z 0) with 0%Q; lra.
Qed.

Lemma locate_morph r w w' : (w == w')%Q -> locate r w -> locate r w'.
Proof.
  destruct r as [m rb sb]. unfold locate; cbn. intros E [Hm H]. split; [exact Hm|].
  destruct rb, sb; lra.
Qed.

Lemma locate_iter p : forall r w, locate r w -> locate (iter_pos shr_1 p r) (w * P2 (- Zpos p)).
Proof.
  induction p as [p IH|p IH|]; intros r w H; cbn [iter_pos].
  - apply locate_shr_1 in H. apply IH in H. apply IH in H.
    eapply locate_morph; [|exact H].
    replace (- Zpos p~1) with (- Zpos p + - Zpos p + -1) by lia.
    rewrite !P2_add, P2_m1. ring.
  - apply IH in H. apply IH in H.
    eapply locate_morph; [|exact H].
    replace (- Zpos p~0) with (- Zpos p + - Zpos p) by lia.
    rewrite !P2_add. ring.
  - apply locate_shr_1 in H. eapply locate_morph; [|exact H].
    change (- Zpos 1) with (-1). rewrite P2_m1. ring.
Qed.

Lemma locate_bounds r w : locate r w ->
  0 <= shr_m r /\ (inject_Z (shr_m r) <= w < inject_Z (shr_m r) + 1)%Q.
Proof.
  destruct r as [m rb sb]. unfold locate; cbn. intros [Hm H]. split; [exact Hm|].
  destruct rb, sb; lra.
Qed.

Lemma locate_of_loc_exact m : 0 <= m -> locate (shr_record_of_loc m loc_Exact) (inject_Z m).
Proof. intros Hm. unfold locate; cbn. split; [exact Hm | reflexivity]. Qed.

Lemma round_nearest_even_spec r w : locate r w ->
  let mr := round_nearest_even (shr_m r) (loc_of_shr_record r) in
  shr_m r <= mr <= shr_m r + 1 /\ (Qabs (inject_Z mr - w) <= 1 # 2)%Q /\
  (shr_r r = false -> shr_s r = false -> mr = shr_m r /\ (w == inject_Z mr)%Q).
Proof.
  destruct r as [m rb sb]. unfold locate; cbn [shr_m shr_r shr_s]. intros [Hm H].
  destruct rb, sb; cbn [loc_of_shr_record round_nearest_even shr_m shr_r shr_s].
  - split; [lia|]. split; [|discriminate]. rewrite inject_Z_plus. apply Qabs_Qle_condition; split; change (inject_Z 1) with 1%Q; lra.
  - destruct (Z.even m).
    + split; [lia|]. split; [|discriminate]. apply Qabs_Qle_condition; split; lra.
    + split; [lia|]. split; [|discriminate]. rewrite inject_Z_plus. apply Qabs_Qle_condition; split; change (inject_Z 1) with 1%Q; lra.
  - split; [lia|]. split; [|discriminate]. apply Qabs_Qle_condition; split; lra.
  - split; [lia|]. split; [|intros; split; [reflexivity|exact H]]. apply Qabs_Qle_condition; split; lra.
Qed.

Lemma mul_P2_lt a b e : (a < b -> a * P2 e < b * P2 e)%Q.
Proof. intros H. apply Qmult_lt_compat_r; [apply P2_pos | exact H]. Qed.

Lemma mul_P2_le a b e : (a <= b -> a * P2 e <= b * P2 e)%Q.
Proof. intros H. apply Qmult_le_compat_r; [exact H | apply Qlt_le_weak, P2_pos]. Qed.

Lemma digits2_pos_bounds p :
  2 ^ (Zpos (digits2_pos p) - 1) <= Zpos p < 2 ^ Zpos (digits2_pos p).
Proof.
  induction p as [p IH|p IH|]; cbn [digits2_pos].
  - rewrite Pos2Z.inj_succ. set (d := Zpos (digits2_pos p)) in *.
    assert (Hd : 1 <= d) by (unfold d; lia).
    assert (E1 : 2 ^ d = 2 * 2 ^ (d - 1)) by (rewrite <- Z.pow_succ_r; [f_equal; lia | lia]).
    assert (E2 : 2 ^ Z.succ d = 2 * 2 ^ d) by (apply Z.pow_succ_r; lia).
    replace (Z.succ d - 1) with d by lia. rewrite E2. lia.
  - rewrite Pos2Z.inj_succ. set (d := Zpos (digits2_pos p)) in *.
    assert (Hd : 1 <= d) by (unfold d; lia).
    assert (E1 : 2 ^ d = 2 * 2 ^ (d - 1)) by (rewrite <- Z.pow_succ_r; [f_equal; lia | lia]).
    assert (E2 : 2 ^ Z.succ d = 2 * 2 ^ d) by (apply Z.pow_succ_r; lia).
    replace (Z.succ d - 1) with d by lia. rewrite E2. lia.
  - cbn. lia.
Qed.

Lemma Zdigits2_bounds m : 0 < m ->
  1 <= Zdigits2 m /\ 2 ^ (Zdigits2 m - 1) <= m < 2 ^ Zdigits2 m.
Proof.
  intros Hm. destruct m as [|p|p]; try lia. cbn [Zdigits2].
  pose proof (digits2_pos_bounds p). split; [lia | exact H].
Qed.

Lemma Zdigits2_upper m : 0 <= m -> m + 1 <= 2 ^ Zdigits2 m /\ 0 <= Zdigits2 m.
Proof.
  intros Hm. destruct (Z.eq_dec m 0) as [->|Hne]; [cbn; lia|].
  destruct (Zdigits2_bounds m) as [H1 [_ H2]]; lia.
Qed.

Lemma fexp_eq e : fexp 53 1024 e = Z.max (e - 53) (-1074).
Proof. reflexivity. Qed.

Lemma shr_m_of_loc m l : shr_m (shr_record_of_loc m l) = m.
Proof. destruct l as [|[| |]]; reflexivity. Qed.

Lemma Q_to_Z_lt a b : (inject_Z a < inject_Z b)%Q -> a < b.
Proof. rewrite <- Zlt_Qlt. auto. Qed.

Lemma shr_fexp_spec mx ex lx w :
  0 <= mx -> locate (shr_record_of_loc mx lx) w ->
  let '(r', e') := shr_fexp 53 1024 mx ex lx in
  locate r' (w * P2 (ex - e')) /\ -1074 <= e' /\ ex <= e' /\ shr_m r' < 2 ^ 53 /\
  (e' = -1074 \/ 2 ^ 52 <= shr_m r' \/
   (e' = ex /\ fexp 53 1024 (Zdigits2 mx + ex) < ex /\ r' = shr_record_of_loc mx lx)).
Proof.
  intros Hmx Hloc. unfold shr_fexp.
  pose proof (Zdigits2_upper mx Hmx) as [HD HD0].
  set (D := Zdigits2 mx) in *.
  pose proof (locate_bounds _ _ Hloc) as [_ Hw]. rewrite shr_m_of_loc in Hw.
  rewrite fexp_eq. unfold shr.
  destruct (Z.max (D + ex - 53) (-1074) - ex) as [|p|p] eqn:En.
  - assert (HD53 : D <= 53) by lia.
    assert (Hp : 2 ^ D <= 2 ^ 53) by (apply Z.pow_le_mono_r; lia).
    rewrite shr_m_of_loc. split.
    { eapply locate_morph; [|exact Hloc]. rewrite Z.sub_diag. unfold P2. cbn. ring. }
    split; [lia|]. split; [lia|]. split; [lia|].
    destruct (Z.le_gt_cases (-1074) (D + ex - 53)).
    + right; left. assert (D = 53) by lia.
      destruct (Z.eq_dec mx 0) as [E0|Hne]; [subst D; rewrite E0 in *; cbn in *; lia|].
      destruct (Zdigits2_bounds mx) as [_ [H1 _]]; [lia|]. fold D in H1.
      rewrite H0 in H1. exact H1.
    + left. lia.
  - pose proof (locate_iter p _ _ Hloc) as Hit.
    pose proof (locate_bounds _ _ Hit) as [Hm0 Hm'].
    set (m' := shr_m (iter_pos shr_1 p (shr_record_of_loc mx lx))) in *.
    assert (Hup : (w * P2 (- Zpos p) < inject_Z (2 ^ 53))%Q).
    { apply Qlt_le_trans with (P2 D * P2 (- Zpos p))%Q.
      - apply mul_P2_lt. rewrite P2_Z by lia.
        apply Qlt_le_trans with (inject_Z (mx + 1)).
        + rewrite inject_Z_plus. exact (proj2 Hw).
        + rewrite <- Zle_Qle. lia.
      - rewrite <- P2_add, <- P2_Z by lia. apply P2_le. lia. }
    split.
    { eapply locate_morph; [|exact Hit]. replace (ex - (ex + Zpos p)) with (- Zpos p) by lia. reflexivity. }
    split; [lia|]. split; [lia|]. split.
    { apply Q_to_Z_lt. eapply Qle_lt_trans; [exact (proj1 Hm')|exact Hup]. }
    destruct (Z.le_gt_cases (-1074) (D + ex - 53)) as [Hn|Hn]; [|left; lia].
    right; left.
    assert (Hpos : 0 < mx) by (destruct (Z.eq_dec mx 0) as [E0|]; [subst D; rewrite E0 in *; cbn in *; lia | lia]).
    destruct (Zdigits2_bounds mx Hpos) as [_ [H1 _]]. fold D in H1.
    assert (Hlow : (inject_Z (2 ^ 52) <= w * P2 (- Zpos p))%Q).
    { rewrite <- P2_Z by lia. replace 52 with ((D - 1) + - Zpos p) by lia. rewrite P2_add.
      apply mul_P2_le. rewrite P2_Z by lia. apply Qle_trans with (inject_Z mx).
      - rewrite <- Zle_Qle. exact H1.
      - exact (proj1 Hw). }
    assert (inject_Z (2 ^ 52) < inject_Z (m' + 1))%Q.
    { rewrite inject_Z_plus. eapply Qle_lt_trans; [exact Hlow | exact (proj2 Hm')]. }
    apply Q_to_Z_lt in H. lia.
  - assert (HD53 : D < 53) by lia.
    assert (Hp : 2 ^ D <= 2 ^ 53) by (apply Z.pow_le_mono_r; lia).
    rewrite shr_m_of_loc. split.
    { eapply locate_morph; [|exact Hloc]. rewrite Z.sub_diag. unfold P2. cbn. ring. }
    split; [lia|]. split; [lia|]. split; [lia|].
    right; right. split; [reflexivity|]. split; [lia|reflexivity].
Qed.

Lemma shr_fexp_exact mr e' : 0 <= mr <= 2 ^ 53 -> -1074 <= e' ->
  let '(r'', e'') := shr_fexp 53 1024 mr e' loc_Exact in
  0 <= shr_m r'' /\ (inject_Z (shr_m r'') * P2 e'' == inject_Z mr * P2 e')%Q /\
  (shr_m r'' = 0 <-> mr = 0) /\ (e'' = e' \/ (mr = 2 ^ 53 /\ e'' = e' + 1)).
Proof.
  intros Hmr He'. unfold shr_fexp, shr. rewrite fexp_eq.
  destruct (Z.eq_dec mr (2 ^ 53)) as [E|Hne].
  - subst mr. change (Zdigits2 (2 ^ 53)) with 54.
    replace (Z.max (54 + e' - 53) (-1074) - e') with 1 by lia.
    change (shr_m (iter_pos shr_1 1 (shr_record_of_loc (2 ^ 53) loc_Exact))) with (2 ^ 52).
    split; [lia|]. split.
    + replace (e' + 1) with (1 + e') by lia. rewrite P2_add, P2_1.
      setoid_replace (inject_Z (2 ^ 53)) with (inject_Z (2 ^ 52) * 2)%Q by reflexivity. ring.
    + split; [split; intros; discriminate|]. right. split; reflexivity.
  - pose proof (Zdigits2_upper mr (proj1 Hmr)) as [HD HD0].
    assert (HD53 : Zdigits2 mr <= 53).
    { destruct (Z.le_gt_cases (Zdigits2 mr) 53) as [|Hg]; [lia|].
      destruct (Z.eq_dec mr 0) as [E0|H0]; [rewrite E0 in Hg; cbn in Hg; lia|].
      destruct (Zdigits2_bounds mr) as [_ [H1 _]]; [lia|].
      assert (2 ^ 53 <= 2 ^ (Zdigits2 mr - 1)) by (apply Z.pow_le_mono_r; lia). lia. }
    destruct (Z.max (Zdigits2 mr + e' - 53) (-1074) - e') as [|p|p] eqn:En; [| lia |];
      cbn [shr_record_of_loc shr_m]; (split; [lia|]); (split; [reflexivity|]);
      (split; [tauto|]); left; reflexivity.
Qed.

Ltac qlit t := let c := eval vm_compute in t in change t with c in *.

Lemma Qabs_mul_pos a b t : (0 <= t -> Qabs (a * t - b * t) == Qabs (a - b) * t)%Q.
Proof.
  intros Ht. setoid_replace (a * t - b * t)%Q with ((a - b) * t)%Q by ring.
  rewrite Qabs_Qmult, (Qabs_pos t Ht). reflexivity.
Qed.

Lemma round_aux_spec mx ex lx w :
  0 <= mx -> locate (shr_record_of_loc mx lx) w ->
  (lx = loc_Exact \/ ex <= fexp 53 1024 (Zdigits2 mx + ex)) ->
  match binary_round_aux 53 1024 false mx ex lx with
  | S754_zero s => s = false /\ (w * P2 ex <= P2 (-1075))%Q
  | S754_finite s m e => s = false /\
      (Qabs (inject_Z (Zpos m) * P2 e - w * P2 ex)
         <= P2 (-53) * (inject_Z (Zpos m) * P2 e) + P2 (-1075))%Q
  | S754_infinity _ => ex <= fexp 53 1024 (Zdigits2 mx + ex) ->
      (inject_Z ((2 ^ 53 - 1) * 2 ^ 971) < w * P2 ex)%Q
  | S754_nan => False
  end.
Proof.
  intros Hmx Hloc Hl. unfold binary_round_aux.
  pose proof (shr_fexp_spec mx ex lx w Hmx Hloc) as S1.
  destruct (shr_fexp 53 1024 mx ex lx) as [r' e'] eqn:E1.
  destruct S1 as [Hl' [He'min [He'ex [Hm'53 Hcase]]]].
  pose proof (locate_bounds _ _ Hl') as [Hm'0 Hw'].
  pose proof (round_nearest_even_spec r' _ Hl') as [Hmr [Herr Hex]].
  set (mr := round_nearest_even (shr_m r') (loc_of_shr_record r')) in *.
  set (w' := (w * P2 (ex - e'))%Q) in *.
  assert (Hv : (w * P2 ex == w' * P2 e')%Q).
  { unfold w'. rewrite <- Qmult_assoc, <- P2_add. replace (ex - e' + e') with ex by lia. reflexivity. }
  assert (Hcase' : e' = -1074 \/ 2 ^ 52 <= shr_m r' \/
                   (ex <= fexp 53 1024 (Zdigits2 mx + ex) -> False) /\ (mr = shr_m r' /\ (w' == inject_Z mr)%Q)).
  { destruct Hcase as [|[|[He1 [Hf Hr]]]]; [left; assumption | right; left; assumption |].
    right; right. split; [lia|].
    destruct Hl as [Hlx|Hlx]; [|lia]. subst lx. rewrite Hr in Hex |- *. apply Hex; reflexivity. }
  clear Hcase Hex.
  pose proof (shr_fexp_exact mr e') as S2.
  destruct (shr_fexp 53 1024 mr e' loc_Exact) as [r'' e''] eqn:E2.
  destruct S2 as [Hm''0 [Hval [Hzero He'']]]; [lia | lia |].
  pose proof (P2_pos e') as Ht.
  assert (Herr' : (Qabs (inject_Z mr * P2 e' - w' * P2 e') <= (1 # 2) * P2 e')%Q).
  { rewrite Qabs_mul_pos by (apply Qlt_le_weak; exact Ht).
    apply Qmult_le_compat_r; [exact Herr | apply Qlt_le_weak; exact Ht]. }
  assert (HM : (0 <= inject_Z mr)%Q) by (change 0%Q with (inject_Z 0); rewrite <- Zle_Qle; lia).
  assert (Hh : (0 <= P2 (-1075))%Q) by (apply Qlt_le_weak, P2_pos).
  destruct (shr_m r'') as [|m|m] eqn:Em''.
  - split; [reflexivity|]. assert (mr = 0) by (apply Hzero; reflexivity).
    rewrite Hv. destruct Hcase' as [He|[Hb|[_ [_ Hw0]]]].
    + subst e'. rewrite H in Herr. change (inject_Z 0) with 0%Q in Herr.
      apply Qabs_Qle_condition in Herr. qlit (P2 (-1074)). qlit (P2 (-1075)). lra.
    + lia.
    + rewrite Hw0, H. change (inject_Z 0) with 0%Q. rewrite Qmult_0_l. exact Hh.
  - destruct (e'' <=? 1024 - 53) eqn:Ee.
    + split; [reflexivity|]. rewrite Hval, Hv.
      destruct Hcase' as [He|[Hb|[_ [_ Hw0]]]].
      * subst e'. qlit (P2 (-1074)). qlit (P2 (-1075)). qlit (P2 (-53)). lra.
      * assert (Hb' : (inject_Z (2 ^ 52) * P2 e' <= inject_Z mr * P2 e')%Q).
        { apply mul_P2_le. rewrite <- Zle_Qle. lia. }
        set (t := P2 e') in *. set (R := (inject_Z mr * t)%Q) in *.
        qlit (inject_Z (2 ^ 52)). qlit (P2 (-53)). lra.
      * rewrite Hw0, Qabs_mul_pos by (apply Qlt_le_weak, P2_pos).
        setoid_replace (inject_Z mr - inject_Z mr)%Q with 0%Q by ring.
        change (Qabs 0) with 0%Q. rewrite Qmult_0_l.
        assert (0 <= inject_Z mr * P2 e')%Q.
        { apply Qmult_le_0_compat; [exact HM | apply Qlt_le_weak, P2_pos]. }
        assert (0 <= P2 (-53) * (inject_Z mr * P2 e'))%Q.
        { apply Qmult_le_0_compat; [apply Qlt_le_weak, P2_pos | assumption]. }
        lra.
    + intros Hf. apply Z.leb_gt in Ee. rewrite Hv.
      destruct Hcase' as [He|[Hb|[Hno _]]]; [ | | exfalso; exact (Hno Hf)].
      * destruct He'' as [He2|[_ He2]]; lia.
      * destruct He'' as [He2|[Hmr2 He2]].
        -- subst e''. apply Qlt_le_trans with (inject_Z (2 ^ 52) * P2 e')%Q.
           ++ apply Qlt_le_trans with (inject_Z (2 ^ 52) * P2 972)%Q; [vm_compute; reflexivity|].
              apply Qmult_le_l; [vm_compute; reflexivity | apply P2_le; lia].
           ++ apply mul_P2_le. apply Qle_trans with (inject_Z (shr_m r')); [rewrite <- Zle_Qle; lia | exact (proj1 Hw')].
        -- apply Qlt_le_trans with ((inject_Z (2 ^ 53) - (1 # 2)) * P2 e')%Q.
           ++ apply Qlt_le_trans with ((inject_Z (2 ^ 53) - (1 # 2)) * P2 971)%Q; [vm_compute; reflexivity|].
              apply Qmult_le_l; [vm_compute; reflexivity | apply P2_le; lia].
           ++ apply mul_P2_le. rewrite Hmr2 in Herr. apply Qabs_Qle_condition in Herr. lra.
  - lia.
Qed.

Lemma frac_facts r m2 : 0 <= r < m2 ->
  let f := (inject_Z r / inject_Z m2)%Q in
  (0 <= f /\ f < 1 /\ (r = 0%Z -> f == 0) /\ (r <> 0%Z -> 0 < f) /\
   ((2 * r < m2)%Z -> f < 1 # 2) /\ ((2 * r)%Z = m2 -> f == 1 # 2) /\ ((m2 < 2 * r)%Z -> 1 # 2 < f))%Q.
Proof.
  intros Hr. cbv zeta. destruct m2 as [|d|d]; try lia.
  rewrite <- Qmake_Qdiv.
  unfold Qlt, Qle, Qeq; cbn [Qnum Qden]; repeat split; intros; lia.
Qed.

Lemma new_location_spec q r m2 : 0 <= q -> 0 <= r < m2 ->
  locate (shr_record_of_loc q (new_location m2 r)) (inject_Z q + inject_Z r / inject_Z m2)%Q.
Proof.
  intros Hq Hr. pose proof (frac_facts r m2 Hr) as F. cbv zeta in F.
  set (f := (inject_Z r / inject_Z m2)%Q) in *.
  destruct F as [F0 [F1 [Fz [Fnz [Flt [Feq Fgt]]]]]].
  unfold new_location, new_location_even, new_location_odd.
  destruct (Z.even m2) eqn:Ev; destruct (Z.eqb_spec r 0) as [Hr0|Hr0].
  - unfold locate; cbn. split; [lia|]. specialize (Fz Hr0). lra.
  - destruct (Z.compare_spec (2 * r) m2) as [C|C|C]; unfold locate; cbn; (split; [lia|]).
    + specialize (Feq C). lra.
    + specialize (Flt C). specialize (Fnz Hr0). lra.
    + specialize (Fgt C). lra.
  - unfold locate; cbn. split; [lia|]. specialize (Fz Hr0). lra.
  - assert (Hodd : 2 * r <> m2).
    { intros E. rewrite <- E, Z.even_mul in Ev. discriminate. }
    destruct (Z.compare_spec (2 * r + 1) m2) as [C|C|C]; unfold locate; cbn; (split; [lia|]).
    + assert (2 * r < m2) by lia. specialize (Flt H). specialize (Fnz Hr0). lra.
    + assert (2 * r < m2) by lia. specialize (Flt H). specialize (Fnz Hr0). lra.
    + assert (m2 < 2 * r) by lia. specialize (Fgt H). lra.
Qed.

Lemma fexp_mono a b : a <= b -> fexp 53 1024 a <= fexp 53 1024 b.
Proof. rewrite !fexp_eq. lia. Qed.

Lemma div_core_spec m1 e1 m2 e2 : 0 < m1 -> 0 < m2 ->
  let '(q, e', l) := SFdiv_core_binary 53 1024 m1 e1 m2 e2 in
  0 <= q /\ e' <= fexp 53 1024 (Zdigits2 q + e') /\
  exists w, locate (shr_record_of_loc q l) w /\
    (w * P2 e' == (inject_Z m1 * P2 e1) / (inject_Z m2 * P2 e2))%Q.
Proof.
  intros H1 H2. unfold SFdiv_core_binary.
  set (d1 := Zdigits2 m1). set (d2 := Zdigits2 m2).
  set (e' := Z.min (fexp 53 1024 (d1 + e1 - (d2 + e2))) (e1 - e2)).
  assert (Hs : 0 <= e1 - e2 - e') by (unfold e'; lia).
  set (s := e1 - e2 - e') in *.
  set (m' := match s with Zpos _ => Z.shiftl m1 s | Z0 => m1 | Zneg _ => 0 end).
  assert (Hm' : m' = m1 * 2 ^ s).
  { unfold m'. destruct s as [|p|p] eqn:Es; [lia | | lia].
    rewrite <- Es. apply Z.shiftl_mul_pow2. lia. }
  clearbody m'.
  pose proof (Z_div_mod m' m2 ltac:(lia)) as Hdm.
  destruct (Z.div_eucl m' m2) as [q r].
  destruct Hdm as [Hdm Hr].
  assert (Hps : 0 < 2 ^ s) by (apply Z.pow_pos_nonneg; lia).
  assert (Hq : 0 <= q) by nia.
  split; [exact Hq|]. split.
  - destruct (Zdigits2_bounds m1 H1) as [Hd1 [Hm1l _]].
    destruct (Zdigits2_bounds m2 H2) as [Hd2 [_ Hm2u]].
    destruct (Zdigits2_upper q Hq) as [Hqu Hdq].
    fold d1 in Hd1, Hm1l. fold d2 in Hd2, Hm2u.
    assert (HA : 2 ^ (d1 - 1 + s) <= m') by (rewrite Z.pow_add_r by lia; nia).
    assert (HB : m' < 2 ^ (Zdigits2 q + d2)).
    { rewrite Z.pow_add_r by lia.
      assert (m' < (q + 1) * m2) by nia.
      assert ((q + 1) * m2 <= 2 ^ Zdigits2 q * 2 ^ d2).
      { apply Z.mul_le_mono_nonneg; lia. }
      lia. }
    assert (HC : d1 - 1 + s < Zdigits2 q + d2).
    { apply (Z.pow_lt_mono_r_iff 2); [lia | lia |]. lia. }
    apply Z.le_trans with (fexp 53 1024 (d1 + e1 - (d2 + e2))); [unfold e'; lia|].
    apply fexp_mono. unfold s in HC. lia.
  - exists (inject_Z q + inject_Z r / inject_Z m2)%Q. split.
    + apply new_location_spec; lia.
    + assert (Hm2Q : ~ (inject_Z m2 == 0)%Q).
      { change 0%Q with (inject_Z 0). rewrite inject_Z_injective. lia. }
      assert (Hw : (inject_Z q + inject_Z r / inject_Z m2 == inject_Z m1 * inject_Z (2 ^ s) / inject_Z m2)%Q).
      { rewrite <- inject_Z_mult, <- Hm', Hdm, inject_Z_plus, inject_Z_mult. field. exact Hm2Q. }
      rewrite Hw, <- P2_Z by lia.
      assert (He1 : (P2 e1 == P2 s * P2 e' * P2 e2)%Q).
      { rewrite <- !P2_add. unfold s. replace (e1 - e2 - e' + e' + e2) with e1 by lia. reflexivity. }
      rewrite He1. field. split; [|exact Hm2Q].
      intros E. pose proof (P2_pos e2) as P. rewrite E in P. discriminate P.
Qed.

Lemma Q_of_mant_exp_P2 m e : (Q_of_mant_exp m e == inject_Z m * P2 e)%Q.
Proof.
  unfold Q_of_mant_exp. destruct (Z.leb_spec 0 e) as [He|He].
  - rewrite inject_Z_mult, P2_Z by exact He. reflexivity.
  - rewrite Qmake_Qdiv, Z2Pos.id by (apply Z.pow_pos_nonneg; lia).
    rewrite <- P2_Z by lia. unfold P2. rewrite Qpower_opp. unfold Qdiv. rewrite Qinv_involutive. reflexivity.
Qed.

Lemma is_finite_spec f : is_finite f = true ->
  match Prim2SF f with S754_zero _ | S754_finite _ _ _ => True | _ => False end.
Proof.
  unfold is_finite, is_nan, is_infinity. rewrite !eqb_spec, abs_spec.
  change (Prim2SF infinity) with (S754_infinity false).
  destruct (Prim2SF f) as [s|s| |s m e]; [trivial | destruct s | |trivial]; cbn; discriminate.
Qed.

Lemma SF64mul_pos mx ex mk ek :
  SF64mul (S754_finite false mx ex) (S754_finite false mk ek) =
  binary_round_aux 53 1024 false (Zpos (mx * mk)) (ex + ek) loc_Exact.
Proof. reflexivity. Qed.

Lemma SF64div_pos my ey mk ek :
  SF64div (S754_finite false my ey) (S754_finite false mk ek) =
  let '(mz, ez, lz) := SFdiv_core_binary 53 1024 (Zpos my) ey (Zpos mk) ek in
  binary_round_aux 53 1024 false mz ez lz.
Proof. reflexivity. Qed.

Lemma finite_le_max s m e : valid_binary (S754_finite s m e) = true ->
  (inject_Z (Zpos m) * P2 e <= inject_Z ((2 ^ 53 - 1) * 2 ^ 971))%Q.
Proof.
  unfold valid_binary, SpecFloat.valid_binary. unfold bounded, canonical_mantissa.
  intros H. apply andb_prop in H as [H1 H2].
  apply Z.eqb_eq in H1. apply Z.leb_le in H2. change prec with 53 in *. change emax with 1024 in *. rewrite fexp_eq in H1.
  pose proof (digits2_pos_bounds m) as [_ Hm].
  assert (Hp : 2 ^ Zpos (digits2_pos m) <= 2 ^ 53) by (apply Z.pow_le_mono_r; lia).
  rewrite inject_Z_mult, <- (P2_Z 971) by lia.
  apply Qle_trans with (inject_Z (Zpos m) * P2 971)%Q.
  - apply Qmult_le_l; [change 0%Q with (inject_Z 0); rewrite <- Zlt_Qlt; lia | apply P2_le; lia].
  - apply mul_P2_le. rewrite <- Zle_Qle. lia.
Qed.

Lemma zero_syn : Prim2SF 0%float = S754_zero false.
Proof. reflexivity. Qed.

Lemma roundtrip_arith (X b R : Q) : (0 <= X ->
  Qabs (b - X) <= P2 (-53) * b + P2 (-1075) ->
  Qabs (R - b) <= P2 (-53) * R + P2 (-1075) ->
  Qabs (R - X) <= (1 # 2 ^ 51) * Qabs X + (1 # 2 ^ 1073))%Q.
Proof.
  intros H0 H1 H2. rewrite (Qabs_pos X H0).
  apply Qabs_Qle_condition in H1, H2. apply Qabs_Qle_condition.
  qlit (P2 (-53)). qlit (P2 (-1075)). qlit (2 ^ 51)%positive. qlit (2 ^ 1073)%positive.
  split; lra.
Qed.

Lemma roundtrip_arith_zero (X b : Q) : (0 <= X -> 0 <= b -> b <= P2 (-1075) ->
  Qabs (b - X) <= P2 (-53) * b + P2 (-1075) ->
  Qabs (0 - X) <= (1 # 2 ^ 51) * Qabs X + (1 # 2 ^ 1073))%Q.
Proof.
  intros H0 Hb0 Hb H1. rewrite (Qabs_pos X H0).
  apply Qabs_Qle_condition in H1. apply Qabs_Qle_condition.
  qlit (P2 (-53)). qlit (P2 (-1075)). qlit (2 ^ 51)%positive. qlit (2 ^ 1073)%positive.
  split; lra.
Qed.

Lemma scale_bound (X K Y : Q) : (1 <= K ->
  Qabs (Y - X * K) <= P2 (-53) * Y + P2 (-1075) ->
  Qabs (Y / K - X) <= P2 (-53) * (Y / K) + P2 (-1075))%Q.
Proof.
  intros HK H.
  assert (HK0 : (0 < K)%Q) by lra.
  assert (HKn : ~ (K == 0)%Q) by (intros E; rewrite E in HK0; discriminate HK0).
  set (b := (Y / K)%Q).
  assert (HY : (Y == b * K)%Q) by (unfold b; field; exact HKn).
  rewrite HY, Qabs_mul_pos in H by lra.
  apply (Qmult_le_r _ _ K HK0).
  pose proof (P2_pos (-1075)) as Hh.
  assert (Hh' : (P2 (-1075) * 1 <= P2 (-1075) * K)%Q) by (apply Qmult_le_l; assumption).
  setoid_replace ((P2 (-53) * b + P2 (-1075)) * K)%Q with (P2 (-53) * (b * K) + P2 (-1075) * K)%Q by ring.
  lra.
Qed.

Lemma roundtrip_factor (x k : float) mk ek :
  Prim2SF k = S754_finite false mk ek ->
  (1 <= inject_Z (Zpos mk) * P2 ek)%Q ->
  (0 <=? x)%float = true -> is_finite (x * k)%float = true ->
  within_tol ((x * k) / k)%float x = true.
Proof.
  intros Hk HK1 Hx Hfin.
  apply is_finite_spec in Hfin. rewrite mul_spec, Hk in Hfin.
  rewrite leb_spec, zero_syn in Hx.
  pose proof (Prim2SF_valid (x * k)%float) as Hv. rewrite mul_spec, Hk in Hv.
  unfold within_tol, float_value. rewrite div_spec, mul_spec, Hk.
  set (K := (inject_Z (Zpos mk) * P2 ek)%Q) in *.
  destruct (Prim2SF x) as [sx|sx| |sx mx ex] eqn:Ex.
  - destruct sx; vm_compute; reflexivity.
  - destruct sx; cbn in Hfin; contradiction.
  - cbn in Hx. discriminate.
  - destruct sx; [cbn in Hx; discriminate|].
    rewrite SF64mul_pos in Hfin, Hv |- *.
    pose proof (round_aux_spec (Zpos (mx * mk)) (ex + ek) loc_Exact (inject_Z (Zpos (mx * mk)))
                  ltac:(lia) (locate_of_loc_exact (Zpos (mx * mk)) ltac:(lia)) (or_introl eq_refl)) as R1.
    set (X := (inject_Z (Zpos mx) * P2 ex)%Q).
    assert (HX0 : (0 <= X)%Q).
    { apply Qmult_le_0_compat; [change 0%Q with (inject_Z 0); rewrite <- Zle_Qle; lia | apply Qlt_le_weak, P2_pos]. }
    assert (Hw1 : (inject_Z (Zpos (mx * mk)) * P2 (ex + ek) == X * K)%Q).
    { unfold X, K. rewrite Pos2Z.inj_mul, inject_Z_mult, P2_add. ring. }
    destruct (binary_round_aux 53 1024 false (Zpos (mx * mk)) (ex + ek) loc_Exact)
      as [sy|sy| |sy my ey] eqn:EY; try contradiction.
    + destruct R1 as [-> HXK]. rewrite Hw1 in HXK.
      cbn [SF64div SFdiv xorb sf_value]. apply Qle_bool_iff. rewrite Q_of_mant_exp_P2. fold X.
      apply (roundtrip_arith_zero X 0); [exact HX0 | lra | apply Qlt_le_weak, P2_pos |].
      assert (HXX : (X * 1 <= X * K)%Q) by (apply Qmult_le_compat_nonneg; lra).
      pose proof (P2_pos (-1075)). apply Qabs_Qle_condition. split; lra.
    + destruct R1 as [-> HY]. rewrite Hw1 in HY.
      set (Y := (inject_Z (Zpos my) * P2 ey)%Q) in *.
      pose proof (scale_bound X K Y HK1 HY) as Hb.
      assert (HYmax := finite_le_max _ _ _ Hv). fold Y in HYmax.
      assert (HK0 : (0 < K)%Q) by lra.
      assert (HY0 : (0 <= Y)%Q).
      { apply Qmult_le_0_compat; [change 0%Q with (inject_Z 0); rewrite <- Zle_Qle; lia | apply Qlt_le_weak, P2_pos]. }
      assert (Hb0 : (0 <= Y / K)%Q) by (apply Qle_shift_div_l; lra).
      assert (HbY : (Y / K <= Y)%Q).
      { apply Qle_shift_div_r; [exact HK0|]. apply Qle_trans with (Y * 1)%Q; [lra|].
        apply Qmult_le_compat_nonneg; lra. }
      rewrite SF64div_pos.
      pose proof (div_core_spec (Zpos my) ey (Zpos mk) ek ltac:(lia) ltac:(lia)) as D.
      destruct (SFdiv_core_binary 53 1024 (Zpos my) ey (Zpos mk) ek) as [[q e'] l].
      destruct D as [Hq [Hf [w [Hloc Hw]]]].
      pose proof (round_aux_spec q e' l w Hq Hloc (or_intror Hf)) as R2.
      fold Y K in Hw.
      destruct (binary_round_aux 53 1024 false q e' l) as [sr|sr| |sr mr er]; try contradiction.
      * destruct R2 as [-> Hr0]. rewrite Hw in Hr0.
        cbn [sf_value]. apply Qle_bool_iff. rewrite Q_of_mant_exp_P2. fold X.
        exact (roundtrip_arith_zero X (Y / K) HX0 Hb0 Hr0 Hb).
      * specialize (R2 Hf). rewrite Hw in R2. lra.
      * destruct R2 as [-> HR]. rewrite Hw in HR.
        cbn [sf_value]. apply Qle_bool_iff. rewrite !Q_of_mant_exp_P2. fold X.
        exact (roundtrip_arith X (Y / K) _ HX0 Hb HR).
Qed.

(** C7 (amended): the helpers multiply or divide by the factors 25.4 and
    453.592. For every float64 x >= 0 whose conversion InchesToMM x (or
    PoundsToGrams x) does not overflow to infinity, MMToInches (InchesToMM x)
    (or GramsToPounds (PoundsToGrams x)) is finite and within
    2^-51 * |x| + 2^-1073 of x. *)
Theorem unit_conversions_roundtrip (x : float) :
  (0 <=? x)%float = true ->
  InchesToMM x = (x * 25.4)%float /\ MMToInches x = (x / 25.4)%float /\
  PoundsToGrams x = (x * 453.592)%float /\ GramsToPounds x = (x / 453.592)%float /\
  (is_finite (InchesToMM x) = true -> within_tol (MMToInches (InchesToMM x)) x = true) /\
  (is_finite (PoundsToGrams x) = true -> within_tol (GramsToPounds (PoundsToGrams x)) x = true).
Proof.
  intros Hx. do 4 (split; [reflexivity|]). split; intros Hf.
  - apply (roundtrip_factor x 25.4%float 7149464408450662 (-48)); [reflexivity | | exact Hx | exact Hf].
    apply Qle_bool_iff. vm_compute. reflexivity.
  - apply (roundtrip_factor x 453.592%float 7979674852258742 (-44)); [reflexivity | | exact Hx | exact Hf].
    apply Qle_bool_iff. vm_compute. reflexivity.
Qed.

(** ** Sign symmetry and accuracy of the conversions *)

Lemma SFopp_involutive s : SFopp (SFopp s) = s.
Proof. destruct s; cbn; rewrite ?Bool.negb_involutive; reflexivity. Qed.

Lemma binary_round_aux_neg mx ex lx :
  binary_round_aux 53 1024 true mx ex lx = SFopp (binary_round_aux 53 1024 false mx ex lx).
Proof.
  unfold binary_round_aux.
  destruct (shr_fexp 53 1024 mx ex lx) as [r e'].
  destruct (shr_fexp 53 1024 _ e' loc_Exact) as [r2 e2].
  destruct (shr_m r2); [reflexivity | destruct (e2 <=? 1024 - 53); reflexivity | reflexivity].
Qed.

Lemma SF64mul_opp_l s mk ek :
  SF64mul (SFopp s) (S754_finite false mk ek) = SFopp (SF64mul s (S754_finite false mk ek)).
Proof.
  destruct s as [b|b| |b m e]; try reflexivity; try (destruct b; reflexivity).
  destruct b.
  - change (binary_round_aux 53 1024 false (Zpos (m * mk)) (e + ek) loc_Exact =
            SFopp (binary_round_aux 53 1024 true (Zpos (m * mk)) (e + ek) loc_Exact)).
    rewrite binary_round_aux_neg, SFopp_involutive. reflexivity.
  - change (binary_round_aux 53 1024 true (Zpos (m * mk)) (e + ek) loc_Exact =
            SFopp (binary_round_aux 53 1024 false (Zpos (m * mk)) (e + ek) loc_Exact)).
    apply binary_round_aux_neg.
Qed.

Lemma SF64div_opp_l s mk ek :
  SF64div (SFopp s) (S754_finite false mk ek) = SFopp (SF64div s (S754_finite false mk ek)).
Proof.
  destruct s as [b|b| |b m e]; try reflexivity; try (destruct b; reflexivity).
  destruct b.
  - change (SF64div (S754_finite false m e) (S754_finite false mk ek) =
            SFopp (let '(mz, ez, lz) := SFdiv_core_binary 53 1024 (Zpos m) e (Zpos mk) ek in
                   binary_round_aux 53 1024 true mz ez lz)).
    rewrite SF64div_pos.
    destruct (SFdiv_core_binary 53 1024 (Zpos m) e (Zpos mk) ek) as [[mz ez] lz].
    rewrite binary_round_aux_neg, SFopp_involutive. reflexivity.
  - change ((let '(mz, ez, lz) := SFdiv_core_binary 53 1024 (Zpos m) e (Zpos mk) ek in
             binary_round_aux 53 1024 true mz ez lz) =
            SFopp (SF64div (S754_finite false m e) (S754_finite false mk ek))).
    rewrite SF64div_pos.
    destruct (SFdiv_core_binary 53 1024 (Zpos m) e (Zpos mk) ek) as [[mz ez] lz].
    apply binary_round_aux_neg.
Qed.

Lemma Prim2SF_inj a b : Prim2SF a = Prim2SF b -> a = b.
Proof. intros E. rewrite <- (SF2Prim_Prim2SF a), <- (SF2Prim_Prim2SF b), E. reflexivity. Qed.

Lemma mul_pos_acc mx ex mk ek :
  let y := SF64mul (S754_finite false mx ex) (S754_finite false mk ek) in
  match y with S754_zero _ | S754_finite _ _ _ => True | _ => False end ->
  exists r, sf_value y = Some r /\
  (Qabs (r - (inject_Z (Zpos mx) * P2 ex) * (inject_Z (Zpos mk) * P2 ek))
     <= P2 (-53) * Qabs r + P2 (-1075))%Q.
Proof.
  cbv zeta. rewrite SF64mul_pos. intros Hy.
  pose proof (round_aux_spec (Zpos (mx * mk)) (ex + ek) loc_Exact (inject_Z (Zpos (mx * mk)))
                ltac:(lia) (locate_of_loc_exact (Zpos (mx * mk)) ltac:(lia)) (or_introl eq_refl)) as R1.
  set (X := (inject_Z (Zpos mx) * P2 ex)%Q). set (K := (inject_Z (Zpos mk) * P2 ek)%Q).
  assert (Hw1 : (inject_Z (Zpos (mx * mk)) * P2 (ex + ek) == X * K)%Q).
  { unfold X, K. rewrite Pos2Z.inj_mul, inject_Z_mult, P2_add. ring. }
  assert (HXK : (0 <= X * K)%Q).
  { rewrite <- Hw1. apply Qmult_le_0_compat; [change 0%Q with (inject_Z 0); rewrite <- Zle_Qle; lia | apply Qlt_le_weak, P2_pos]. }
  pose proof (P2_pos (-53)) as Hu. pose proof (P2_pos (-1075)) as Hh.
  destruct (binary_round_aux 53 1024 false (Zpos (mx * mk)) (ex + ek) loc_Exact)
    as [sy|sy| |sy my ey]; try contradiction.
  - destruct R1 as [-> H]. rewrite Hw1 in H. exists 0%Q. split; [reflexivity|].
    setoid_replace (0 - X * K)%Q with (- (X * K))%Q by ring. rewrite Qabs_opp, Qabs_pos by exact HXK.
    change (Qabs 0) with 0%Q. lra.
  - destruct R1 as [-> H]. rewrite Hw1 in H. exists (Q_of_mant_exp (Zpos my) ey). split; [reflexivity|].
    rewrite Q_of_mant_exp_P2.
    assert (0 <= inject_Z (Zpos my) * P2 ey)%Q.
    { apply Qmult_le_0_compat; [change 0%Q with (inject_Z 0); rewrite <- Zle_Qle; lia | apply Qlt_le_weak, P2_pos]. }
    rewrite (Qabs_pos (inject_Z (Zpos my) * P2 ey)) by assumption. exact H.
Qed.

Lemma div_pos_acc mx ex mk ek :
  (1 <= inject_Z (Zpos mk) * P2 ek)%Q ->
  valid_binary (S754_finite false mx ex) = true ->
  exists r, sf_value (SF64div (S754_finite false mx ex) (S754_finite false mk ek)) = Some r /\
  (Qabs (r - (inject_Z (Zpos mx) * P2 ex) / (inject_Z (Zpos mk) * P2 ek))
     <= P2 (-53) * Qabs r + P2 (-1075))%Q.
Proof.
  intros HK1 Hv.
  set (X := (inject_Z (Zpos mx) * P2 ex)%Q). set (K := (inject_Z (Zpos mk) * P2 ek)%Q) in *.
  pose proof (finite_le_max _ _ _ Hv) as HXmax. fold X in HXmax.
  assert (HK0 : (0 < K)%Q) by lra.
  assert (HX0 : (0 <= X)%Q).
  { apply Qmult_le_0_compat; [change 0%Q with (inject_Z 0); rewrite <- Zle_Qle; lia | apply Qlt_le_weak, P2_pos]. }
  assert (Hb0 : (0 <= X / K)%Q) by (apply Qle_shift_div_l; lra).
  assert (HbX : (X / K <= X)%Q).
  { apply Qle_shift_div_r; [exact HK0|]. apply Qle_trans with (X * 1)%Q; [lra|].
    apply Qmult_le_compat_nonneg; lra. }
  pose proof (P2_pos (-53)) as Hu. pose proof (P2_pos (-1075)) as Hh.
  rewrite SF64div_pos.
  pose proof (div_core_spec (Zpos mx) ex (Zpos mk) ek ltac:(lia) ltac:(lia)) as D.
  destruct (SFdiv_core_binary 53 1024 (Zpos mx) ex (Zpos mk) ek) as [[q e'] l].
  destruct D as [Hq [Hf [w [Hloc Hw]]]]. fold X K in Hw.
  pose proof (round_aux_spec q e' l w Hq Hloc (or_intror Hf)) as R2.
  destruct (binary_round_aux 53 1024 false q e' l) as [sr|sr| |sr mr er]; try contradiction.
  - destruct R2 as [-> H]. rewrite Hw in H. exists 0%Q. split; [reflexivity|].
    setoid_replace (0 - X / K)%Q with (- (X / K))%Q by ring. rewrite Qabs_opp, Qabs_pos by exact Hb0.
    change (Qabs 0) with 0%Q. lra.
  - specialize (R2 Hf). rewrite Hw in R2. lra.
  - destruct R2 as [-> H]. rewrite Hw in H. exists (Q_of_mant_exp (Zpos mr) er). split; [reflexivity|].
    rewrite Q_of_mant_exp_P2.
    assert (0 <= inject_Z (Zpos mr) * P2 er)%Q.
    { apply Qmult_le_0_compat; [change 0%Q with (inject_Z 0); rewrite <- Zle_Qle; lia | apply Qlt_le_weak, P2_pos]. }
    rewrite (Qabs_pos (inject_Z (Zpos mr) * P2 er)) by assumption. exact H.
Qed.

Lemma sf_value_opp y r : sf_value y = Some r ->
  exists r', sf_value (SFopp y) = Some r' /\ (r' == - r)%Q.
Proof.
  destruct y as [s|s| |s m e]; cbn [sf_value SFopp]; intros E; inversion E; subst.
  - exists 0%Q. split; [reflexivity | ring].
  - eexists. split; [reflexivity|]. rewrite !Q_of_mant_exp_P2.
    destruct s; cbn [negb]; change (Zneg m) with (- Zpos m); rewrite inject_Z_opp; ring.
Qed.

Lemma acc_neg r r' a b : (r' == - r)%Q -> (a == - b)%Q ->
  (Qabs (r - b) <= P2 (-53) * Qabs r + P2 (-1075))%Q ->
  (Qabs (r' - a) <= P2 (-53) * Qabs r' + P2 (-1075))%Q.
Proof.
  intros H1 H2 H. setoid_replace (r' - a)%Q with (- (r - b))%Q by (rewrite H1, H2; ring).
  rewrite Qabs_opp, H1, Qabs_opp. exact H.
Qed.

Lemma factor_err a K C d : (0 < C)%Q -> (Qabs (K - C) <= d * C)%Q ->
  (Qabs (a * K - a * C) <= d * Qabs (a * C))%Q.
Proof.
  intros HC H. setoid_replace (a * K - a * C)%Q with (a * (K - C))%Q by ring.
  rewrite !Qabs_Qmult, (Qabs_pos C) by lra.
  setoid_replace (d * (Qabs a * C))%Q with (Qabs a * (d * C))%Q by ring.
  apply Qmult_le_compat_nonneg; [split; [apply Qabs_nonneg | lra] | split; [apply Qabs_nonneg | exact H]].
Qed.

Lemma comp_err r aK aC :
  (Qabs (r - aK) <= P2 (-53) * Qabs r + P2 (-1075))%Q ->
  (Qabs (aK - aC) <= (3 # 2 ^ 55) * Qabs aC)%Q ->
  (Qabs (r - aC) <= (1 # 2 ^ 52) * Qabs aC + (1 # 2 ^ 1074))%Q.
Proof.
  intros H1 H2.
  assert (T1 : (Qabs (r - aC) <= Qabs (r - aK) + Qabs (aK - aC))%Q).
  { setoid_replace (r - aC)%Q with ((r - aK) + (aK - aC))%Q by ring. apply Qabs_triangle. }
  assert (T2 : (Qabs r <= Qabs aC + Qabs (r - aC))%Q).
  { setoid_replace r with (aC + (r - aC))%Q at 1 by ring. apply Qabs_triangle. }
  pose proof (Qabs_nonneg aC).
  qlit (P2 (-53)). qlit (P2 (-1075)). qlit (1 # 2 ^ 55)%Q. qlit (3 # 2 ^ 55)%Q. qlit (1 # 2 ^ 52)%Q. qlit (1 # 2 ^ 1074)%Q.
  lra.
Qed.

Lemma float_mul_acc x k mk ek : Prim2SF k = S754_finite false mk ek ->
  is_finite (x * k)%float = true ->
  exists a r, float_value x = Some a /\ float_value (x * k)%float = Some r /\
  (Qabs (r - a * (inject_Z (Zpos mk) * P2 ek)) <= P2 (-53) * Qabs r + P2 (-1075))%Q.
Proof.
  intros Hk Hfin. apply is_finite_spec in Hfin. unfold float_value. rewrite mul_spec, Hk in *.
  pose proof (P2_pos (-53)) as Hu. pose proof (P2_pos (-1075)) as Hh.
  destruct (Prim2SF x) as [sx|sx| |sx mx ex] eqn:Ex.
  - exists 0%Q, 0%Q. split; [reflexivity|]. split; [destruct sx; reflexivity|].
    setoid_replace (0 - 0 * (inject_Z (Zpos mk) * P2 ek))%Q with 0%Q by ring.
    change (Qabs 0) with 0%Q. lra.
  - destruct sx; contradiction.
  - contradiction.
  - destruct sx.
    + change (S754_finite true mx ex) with (SFopp (S754_finite false mx ex)) in *.
      rewrite SF64mul_opp_l in *.
      assert (Hy : match SF64mul (S754_finite false mx ex) (S754_finite false mk ek) with
                   S754_zero _ | S754_finite _ _ _ => True | _ => False end)
        by (destruct (SF64mul (S754_finite false mx ex) (S754_finite false mk ek)); cbn in *; auto).
      destruct (mul_pos_acc mx ex mk ek Hy) as [r [Hr Hacc]].
      destruct (sf_value_opp _ _ Hr) as [r' [Hr' Hrr]].
      eexists _, r'. split; [reflexivity|]. split; [exact Hr'|].
      eapply acc_neg; [exact Hrr | | exact Hacc].
      cbv [negb]. rewrite Q_of_mant_exp_P2. change (Zneg mx) with (- Zpos mx). rewrite inject_Z_opp. ring.
    + destruct (mul_pos_acc mx ex mk ek Hfin) as [r [Hr Hacc]].
      eexists _, r. split; [reflexivity|]. split; [exact Hr|].
      rewrite Q_of_mant_exp_P2. exact Hacc.
Qed.

Lemma float_div_acc x k mk ek : Prim2SF k = S754_finite false mk ek ->
  (1 <= inject_Z (Zpos mk) * P2 ek)%Q ->
  is_finite x = true ->
  exists a r, float_value x = Some a /\ float_value (x / k)%float = Some r /\
  (Qabs (r - a / (inject_Z (Zpos mk) * P2 ek)) <= P2 (-53) * Qabs r + P2 (-1075))%Q.
Proof.
  intros Hk HK1 Hfin. apply is_finite_spec in Hfin. pose proof (Prim2SF_valid x) as Hv.
  unfold float_value. rewrite div_spec, Hk.
  pose proof (P2_pos (-53)) as Hu. pose proof (P2_pos (-1075)) as Hh.
  destruct (Prim2SF x) as [sx|sx| |sx mx ex] eqn:Ex; try contradiction.
  - exists 0%Q, 0%Q. split; [reflexivity|]. split; [destruct sx; reflexivity|].
    setoid_replace (0 - 0 / (inject_Z (Zpos mk) * P2 ek))%Q with 0%Q by (unfold Qdiv; ring).
    change (Qabs 0) with 0%Q. lra.
  - assert (Hv' : valid_binary (S754_finite false mx ex) = true) by exact Hv.
    destruct (div_pos_acc mx ex mk ek HK1 Hv') as [r [Hr Hacc]].
    destruct sx.
    + change (S754_finite true mx ex) with (SFopp (S754_finite false mx ex)).
      rewrite SF64div_opp_l.
      destruct (sf_value_opp _ _ Hr) as [r' [Hr' Hrr]].
      eexists _, r'. split; [reflexivity|]. split; [exact Hr'|].
      eapply acc_neg; [exact Hrr | | exact Hacc].
      cbv [negb]. rewrite Q_of_mant_exp_P2. change (Zneg mx) with (- Zpos mx). rewrite inject_Z_opp.
      unfold Qdiv. ring.
    + eexists _, r. split; [reflexivity|]. split; [exact Hr|].
      rewrite Q_of_mant_exp_P2. exact Hacc.
Qed.


(** X7: the four conversions are odd functions: converting [-x] gives
    exactly the negation of converting [x], for every float64 [x]
    (zeros, infinities and NaN included). *)
Theorem conversions_odd (x : float) :
  InchesToMM (- x)%float = (- InchesToMM x)%float /\
  MMToInches (- x)%float = (- MMToInches x)%float /\
  PoundsToGrams (- x)%float = (- PoundsToGrams x)%float /\
  GramsToPounds (- x)%float = (- GramsToPounds x)%float.
Proof.
  unfold InchesToMM, MMToInches, PoundsToGrams, GramsToPounds.
  repeat split; apply Prim2SF_inj;
    rewrite ?mul_spec, ?div_spec, !opp_spec, ?mul_spec, ?div_spec.
  - apply (SF64mul_opp_l _ 7149464408450662 (-48)).
  - apply (SF64div_opp_l _ 7149464408450662 (-48)).
  - apply (SF64mul_opp_l _ 7979674852258742 (-44)).
  - apply (SF64div_opp_l _ 7979674852258742 (-44)).
Qed.

(** X8: when InchesToMM x is finite, its value is the exact product of x
    with 127/5 (= 25.4) up to a relative error of 2^-52 plus 2^-1074. *)
Theorem InchesToMM_accuracy (x : float) :
  is_finite (InchesToMM x) = true ->
  exists a r, float_value x = Some a /\ float_value (InchesToMM x) = Some r /\
  (Qabs (r - a * (127 # 5)) <= (1 # 2 ^ 52) * Qabs (a * (127 # 5)) + (1 # 2 ^ 1074))%Q.
Proof.
  unfold InchesToMM. intros H.
  destruct (float_mul_acc x 25.4%float 7149464408450662 (-48) eq_refl H) as [a [r [Ha [Hr Hacc]]]].
  exists a, r. split; [exact Ha|]. split; [exact Hr|].
  apply (comp_err r _ _ Hacc). apply factor_err;
    [vm_compute; reflexivity | apply Qle_bool_iff; vm_compute; reflexivity].
Qed.

(** X9: when PoundsToGrams x is finite, its value is the exact product of
    x with 56699/125 (= 453.592) up to a relative error of 2^-52 plus
    2^-1074. *)
Theorem PoundsToGrams_accuracy (x : float) :
  is_finite (PoundsToGrams x) = true ->
  exists a r, float_value x = Some a /\ float_value (PoundsToGrams x) = Some r /\
  (Qabs (r - a * (56699 # 125)) <= (1 # 2 ^ 52) * Qabs (a * (56699 # 125)) + (1 # 2 ^ 1074))%Q.
Proof.
  unfold PoundsToGrams. intros H.
  destruct (float_mul_acc x 453.592%float 7979674852258742 (-44) eq_refl H) as [a [r [Ha [Hr Hacc]]]].
  exists a, r. split; [exact Ha|]. split; [exact Hr|].
  apply (comp_err r _ _ Hacc). apply factor_err;
    [vm_compute; reflexivity | apply Qle_bool_iff; vm_compute; reflexivity].
Qed.

(** X10: MMToInches never overflows: for every finite x the result is
    finite, and its value is x * 5/127 (= x / 25.4) up to a relative error
    of 2^-52 plus 2^-1074. *)
Theorem MMToInches_accuracy (x : float) :
  is_finite x = true ->
  exists a r, float_value x = Some a /\ float_value (MMToInches x) = Some r /\
  (Qabs (r - a * (5 # 127)) <= (1 # 2 ^ 52) * Qabs (a * (5 # 127)) + (1 # 2 ^ 1074))%Q.
Proof.
  unfold MMToInches. intros H.
  destruct (float_div_acc x 25.4%float 7149464408450662 (-48) eq_refl
              ltac:(apply Qle_bool_iff; vm_compute; reflexivity) H) as [a [r [Ha [Hr Hacc]]]].
  exists a, r. split; [exact Ha|]. split; [exact Hr|].
  apply (comp_err r _ _ Hacc). apply factor_err;
    [vm_compute; reflexivity | apply Qle_bool_iff; vm_compute; reflexivity].
Qed.

(** X11: GramsToPounds never overflows: for every finite x the result is
    finite, and its value is x * 125/56699 (= x / 453.592) up to a relative
    error of 2^-52 plus 2^-1074. *)
Theorem GramsToPounds_accuracy (x : float) :
  is_finite x = true ->
  exists a r, float_value x = Some a /\ float_value (GramsToPounds x) = Some r /\
  (Qabs (r - a * (125 # 56699)) <= (1 # 2 ^ 52) * Qabs (a * (125 # 56699)) + (1 # 2 ^ 1074))%Q.
Proof.
  unfold GramsToPounds. intros H.
  destruct (float_div_acc x 453.592%float 7979674852258742 (-44) eq_refl
              ltac:(apply Qle_bool_iff; vm_compute; reflexivity) H) as [a [r [Ha [Hr Hacc]]]].
  exists a, r. split; [exact Ha|]. split; [exact Hr|].
  apply (comp_err r _ _ Hacc). apply factor_err;
    [vm_compute; reflexivity | apply Qle_bool_iff; vm_compute; reflexivity].
Qed.

(** * Witnesses and counterexamples for Pack *)

Lemma Pack_ok_status_returns_decoded_witness :
  PackingResponse.Error soft_error_response <> "" /\
  snd (Pack (server_runtime 200 "{}" (Ok soft_error_response)) New test_ctx (Some test_request))
    = (Some soft_error_response, None).
Proof.
  split; [discriminate|].
  apply (Pack_ok_status_returns_decoded (server_runtime 200 "{}" (Ok soft_error_response))
           New test_ctx (Some test_request) "{}" built_request (mk_resp 200 "{}") "{}");
    reflexivity.
Defined.

Lemma Pack_bad_status_fails_witness :
  snd (Pack (server_runtime 400 api_error_body (Ok api_error_response)) New test_ctx
         (Some test_request))
    = (None, Some (ErrAPI 400 "carton too large")) /\
  snd (Pack (server_runtime 503 "upstream down" (Ok empty_error_response)) New test_ctx
         (Some test_request))
    = (None, Some (ErrStatus 503 "upstream down")).
Proof.
  split.
  - apply (Pack_bad_status_fails (server_runtime 400 api_error_body (Ok api_error_response))
             New test_ctx (Some test_request) "{}" built_request (mk_resp 400 api_error_body)
             api_error_body api_error_response);
      (reflexivity || discriminate).
  - apply (Pack_bad_status_fails (server_runtime 503 "upstream down" (Ok empty_error_response))
             New test_ctx (Some test_request) "{}" built_request (mk_resp 503 "upstream down")
             "upstream down" empty_error_response);
      (reflexivity || discriminate).
Defined.

(** C3 as stated asks the parse failure to carry the raw body: with the
    body [oops], which json.Unmarshal rejects at its first byte, the error
    Pack returns does not contain the body. *)
Lemma Pack_parse_error_lacks_body :
  snd (Pack oops_runtime New test_ctx (Some test_request)) = (None, Some (ErrParse oops_error)) /\
  ~ (exists e, snd (Pack oops_runtime New test_ctx (Some test_request)) = (None, Some e) /\
               contains "oops" (pack_error_message e) = true).
Proof.
  split; [reflexivity|].
  intros [e [H1 H2]]. vm_compute in H1. injection H1 as <-. vm_compute in H2. discriminate H2.
Qed.

Lemma Pack_decodes_before_status_check_witness :
  fst (Pack oops_runtime New test_ctx (Some test_request)) =
    [EvDo (header_set built_request "Content-Type" "application/json"); EvCloseBody] /\
  snd (Pack oops_runtime New test_ctx (Some test_request)) = (None, Some (ErrParse oops_error)).
Proof.
  exact (Pack_decodes_before_status_check oops_runtime New test_ctx (Some test_request)
           "{}" built_request (mk_resp 500 "oops") eq_refl eq_refl eq_refl).
Defined.

Lemma Pack_marshal_failure_no_network_witness :
  Pack oops_runtime New test_ctx (Some nan_request)
    = ([], (None, Some (ErrMarshal (UnsupportedValueError "NaN")))).
Proof.
  apply Pack_marshal_failure_no_network. reflexivity.
Defined.

(** C5 as stated asks every invocation to issue one POST: a request with
    a NaN length issues none. *)
Lemma Pack_nan_request_sends_nothing :
  count_requests (fst (Pack oops_runtime New test_ctx (Some nan_request))) = 0%nat.
Proof. reflexivity. Qed.

Lemma request_json_roundtrip_witness :
  request_valid test_request = true /\
  exists j, encode_request (Some test_request) = Ok j /\
            json_Unmarshal_request j = (test_request, None).
Proof.
  split; [reflexivity|]. apply request_json_roundtrip. reflexivity.
Defined.

(** * Witness and counterexample for the unit conversions *)

Lemma unit_conversions_roundtrip_witness :
  (0 <=? 10)%float = true /\
  within_tol (MMToInches (InchesToMM 10)) 10 = true /\
  within_tol (GramsToPounds (PoundsToGrams 10)) 10 = true.
Proof.
  destruct (unit_conversions_roundtrip 10%float eq_refl) as [_ [_ [_ [_ [H1 H2]]]]].
  split; [reflexivity|]. split; [apply H1; reflexivity | apply H2; reflexivity].
Defined.

(** At x = 1e308 (non-negative, finite) InchesToMM overflows to +Inf, and
    MMToInches (+Inf) = +Inf is no approximation of x; likewise for pounds. *)
Lemma unit_conversion_overflow_breaks_roundtrip :
  (0 <=? 1e308)%float = true /\
  InchesToMM 1e308 = infinity /\ MMToInches (InchesToMM 1e308) = infinity /\
  within_tol (MMToInches (InchesToMM 1e308)) 1e308 = false /\
  PoundsToGrams 1e308 = infinity /\ GramsToPounds (PoundsToGrams 1e308) = infinity /\
  within_tol (GramsToPounds (PoundsToGrams 1e308)) 1e308 = false.
Proof. repeat split; vm_compute; reflexivity. Qed.

(** * Witnesses for the further properties *)

Lemma Pack_request_carries_context_witness :
  In (EvDo (header_set built_request "Content-Type" "application/json"))
     (fst (Pack (server_runtime 200 "{}" (Ok soft_error_response)) New test_ctx
             (Some test_request))) /\
  test_ctx = Some (req_Context (header_set built_request "Content-Type" "application/json")).
Proof.
  assert (H : In (EvDo (header_set built_request "Content-Type" "application/json"))
     (fst (Pack (server_runtime 200 "{}" (Ok soft_error_response)) New test_ctx
             (Some test_request)))) by (vm_compute; left; reflexivity).
  split; [exact H | exact (Pack_request_carries_context _ _ _ _ _ H)].
Defined.

Lemma Pack_bad_url_sends_nothing_witness :
  json_Marshal bad_url_runtime (Some test_request) = Ok "{}" /\
  Pack bad_url_runtime (NewWithEndpoint "http://[::1") (Some (mk_ctx None)) (Some test_request)
    = ([], (None, Some (ErrCreateRequest url_error))).
Proof.
  split; [reflexivity|].
  apply (Pack_bad_url_sends_nothing bad_url_runtime (NewWithEndpoint "http://[::1") (mk_ctx None)
           (Some test_request) "{}" url_error); reflexivity.
Defined.

Lemma Pack_client_endpoints_witness :
  req_URL (header_set built_request "Content-Type" "application/json")
    = "https://api.palletizer.app/api/v1/pack".
Proof.
  apply (proj1 (Pack_client_endpoints (server_runtime 200 "{}" (Ok soft_error_response)) test_ctx
                  (Some test_request) (mk_http_client 0) "" _)).
  vm_compute. left. reflexivity.
Defined.

Lemma Pack_nil_request_witness :
  req_Body (header_set (mk_req "POST" pack_url [] "{}" (mk_ctx None)) "Content-Type"
              "application/json") = "{}".
Proof.
  apply (proj2 (proj2 (Pack_nil_request (server_runtime 200 "{}" (Ok soft_error_response)) New
                         test_ctx))).
  vm_compute. left. reflexivity.
Defined.

Lemma Pack_marshal_error_kinds_witness :
  snd (Pack oops_runtime New test_ctx (Some nan_request))
    = (None, Some (ErrMarshal (UnsupportedValueError "NaN"))) /\
  (UnsupportedValueError "NaN" = UnsupportedValueError "NaN" \/
   UnsupportedValueError "NaN" = UnsupportedValueError "+Inf" \/
   UnsupportedValueError "NaN" = UnsupportedValueError "-Inf").
Proof.
  split; [reflexivity|].
  apply (Pack_marshal_error_kinds oops_runtime New test_ctx (Some nan_request)). reflexivity.
Defined.

Lemma InchesToMM_accuracy_witness :
  is_finite (InchesToMM (-3.5)) = true /\
  exists a r, float_value (-3.5) = Some a /\ float_value (InchesToMM (-3.5)) = Some r /\
  (Qabs (r - a * (127 # 5)) <= (1 # 2 ^ 52) * Qabs (a * (127 # 5)) + (1 # 2 ^ 1074))%Q.
Proof.
  split; [reflexivity|]. apply InchesToMM_accuracy. reflexivity.
Defined.

Lemma PoundsToGrams_accuracy_witness :
  is_finite (PoundsToGrams 1500) = true /\
  exists a r, float_value 1500 = Some a /\ float_value (PoundsToGrams 1500) = Some r /\
  (Qabs (r - a * (56699 # 125)) <= (1 # 2 ^ 52) * Qabs (a * (56699 # 125)) + (1 # 2 ^ 1074))%Q.
Proof.
  split; [reflexivity|]. apply PoundsToGrams_accuracy. reflexivity.
Defined.

Lemma MMToInches_accuracy_witness :
  is_finite 1219.2 = true /\
  exists a r, float_value 1219.2 = Some a /\ float_value (MMToInches 1219.2) = Some r /\
  (Qabs (r - a * (5 # 127)) <= (1 # 2 ^ 52) * Qabs (a * (5 # 127)) + (1 # 2 ^ 1074))%Q.
Proof.
  split; [reflexivity|]. apply MMToInches_accuracy. reflexivity.
Defined.

Lemma GramsToPounds_accuracy_witness :
  is_finite (-680388) = true /\
  exists a r, float_value (-680388) = Some a /\ float_value (GramsToPounds (-680388)) = Some r /\
  (Qabs (r - a * (125 # 56699)) <= (1 # 2 ^ 52) * Qabs (a * (125 # 56699)) + (1 # 2 ^ 1074))%Q.
Proof.
  split; [reflexivity|]. apply GramsToPounds_accuracy. reflexivity.
Defined.
